(** * AI Financial Tool: the analytics pipeline of [ai_financial_tool_react_app.jsx]

    A shallow embedding of the deterministic part of the dashboard:
    the keyword categorizer [categorizeExpense], the CSV import
    [importCSV], the monthly aggregation [monthlyTotals], the
    linear-regression forecast [linearRegressionPredict], the budget
    alert [willBreachBudget] and the goal progress [progressForGoal],
    with the properties of the specification stated over it.

    - JavaScript numbers are IEEE 754 binary64 values; they are Rocq's
      primitive floats, whose operations are specified by [FloatAxioms]
      over [SpecFloat].  NaN, the infinities and the two zeros are
      there, and so are overflow and rounding.
    - Strings are sequences of 8-bit code units (the Latin-1 range of
      UTF-16 code units).
    - Arrays are lists; an index or a length is a [nat].
    - React state is passed explicitly: a function that reads
      [expenses] takes it, and [importCSV] returns its new value.
    - What the host decides ([Number] on a string, the clock and the
      random source behind the identifiers, the time zone behind
      [monthKey], the collation behind [localeCompare]) is a parameter
      of the functions that use it. *)

From Stdlib Require Import ZArith List String Ascii Bool Lia Floats Uint63.
From Stdlib Require Import Permutation Sorted DecimalString.
Import ListNotations.

Set Warnings "-inexact-float".

Local Open Scope string_scope.
Local Open Scope list_scope.

(* ================================================================== *)
(** ** JavaScript numbers *)
(* ================================================================== *)

Module JS.

(** [a > b] on numbers. *)
Definition gt (a b : float) : bool := PrimFloat.ltb b a.

(** [a >= b] on numbers. *)
Definition ge (a b : float) : bool := PrimFloat.leb b a.

(** [a === b] on numbers: NaN differs from itself, [+0 === -0]. *)
Definition strict_eq (a b : float) : bool := PrimFloat.eqb a b.

Definition isNaN (x : float) : bool := PrimFloat.is_nan x.

(** [Number.isFinite(x)]: neither an infinity nor NaN. *)
Definition isFinite (x : float) : bool :=
  PrimFloat.ltb (PrimFloat.abs x) PrimFloat.infinity.

(** Truthiness of a number: [0], [-0] and [NaN] are falsy. *)
Definition truthy (x : float) : bool :=
  negb (PrimFloat.eqb x 0 || PrimFloat.is_nan x).

(** [x || 0] on a number. *)
Definition or_zero (x : float) : float := if truthy x then x else 0%float.

Definition Math_abs (x : float) : float := PrimFloat.abs x.

(** [Math.max(a, b)]: NaN if an argument is NaN, and [+0] is larger
    than [-0]. *)
Definition Math_max (a b : float) : float :=
  if PrimFloat.is_nan a || PrimFloat.is_nan b then PrimFloat.nan
  else if PrimFloat.ltb a b then b
  else if PrimFloat.ltb b a then a
  else if PrimFloat.get_sign a then b else a.

(** [Math.min(a, b)]: NaN if an argument is NaN, and [-0] is smaller
    than [+0]. *)
Definition Math_min (a b : float) : float :=
  if PrimFloat.is_nan a || PrimFloat.is_nan b then PrimFloat.nan
  else if PrimFloat.ltb a b then a
  else if PrimFloat.ltb b a then b
  else if PrimFloat.get_sign a then a else b.

(** The number whose value is the integer [z]; exact for [|z| < 2^53]. *)
Definition of_Z (z : Z) : float :=
  match z with
  | Z0 => 0%float
  | Zpos _ => PrimFloat.of_uint63 (Uint63.of_Z z)
  | Zneg p => PrimFloat.opp (PrimFloat.of_uint63 (Uint63.of_Z (Zpos p)))
  end.

(** An array index or length as a number. *)
Definition of_nat (n : nat) : float := of_Z (Z.of_nat n).

(** [Math.round(x)]: the integer nearest to [x], ties towards
    [+Infinity]; [-0] for [-0.5 <= x < 0].  A finite [x] is
    [(-1)^s * m * 2^e]; for [e >= 0] it is an integer already, otherwise
    [floor (x + 1/2)] is computed exactly over [Z]. *)
Definition Math_round (x : float) : float :=
  match Prim2SF x with
  | S754_finite s m e =>
      if (0 <=? e)%Z then x
      else
        let d := Z.pow 2 (- e) in
        let z := Z.div (2 * cond_Zopp s (Zpos m) + d) (2 * d) in
        if (z =? 0)%Z then (if s then PrimFloat.neg_zero else PrimFloat.zero)
        else of_Z z
  | _ => x
  end.

(** [Number(x.toFixed(2))].  [toFixed(2)] writes the decimal [n / 100]
    where [n] is the integer nearest to [|x| * 100] (the larger one on a
    tie), with a minus sign when [x < 0]; [Number] reads it back with
    round-to-nearest-even.  Non-finite values and values of magnitude
    at least [10^21] are written in full and read back unchanged; [-0]
    is written as ["0.00"]. *)
Definition Number_toFixed2 (x : float) : float :=
  match Prim2SF x with
  | S754_finite s m e =>
      let read_back (n : Z) : float :=
        match n with
        | Zpos p =>
            SF2Prim (SFdiv prec emax (S754_finite s p 0)
                                     (S754_finite false 100 0))
        | _ => if s then PrimFloat.neg_zero else PrimFloat.zero
        end in
      match e with
      | Zneg k =>
          let d := Z.pow 2 (Zpos k) in
          read_back (Z.div (2 * (100 * Zpos m) + d) (2 * d))
      | _ =>
          let v := (Zpos m * Z.pow 2 e)%Z in
          if (10 ^ 21 <=? v)%Z then x else read_back (100 * v)%Z
      end
  | S754_zero _ => PrimFloat.zero
  | _ => x
  end.

End JS.

(* ================================================================== *)
(** ** Strings *)
(* ================================================================== *)

Module Str.

Definition code (c : ascii) : nat := nat_of_ascii c.

(** [toLowerCase] on one code unit: [A-Z] and the Latin-1 capitals
    [U+00C0 .. U+00DE] (except the multiplication sign [U+00D7]). *)
Definition lower_unit (c : ascii) : ascii :=
  let n := code c in
  if (((65 <=? n) && (n <=? 90))
      || ((192 <=? n) && (n <=? 222) && negb (n =? 215)))%nat
  then ascii_of_nat (n + 32) else c.

Fixpoint toLowerCase (s : string) : string :=
  match s with
  | EmptyString => EmptyString
  | String c rest => String (lower_unit c) (toLowerCase rest)
  end.

(** [text.includes(kw)]: [kw] occurs in [text] as a substring. *)
Fixpoint includes (text kw : string) : bool :=
  if String.prefix kw text then true
  else match text with
       | EmptyString => false
       | String _ rest => includes rest kw
       end.

(** White space and line terminators removed by [trim], in the Latin-1
    range: TAB, LF, VT, FF, CR, SPACE and NO-BREAK SPACE. *)
Definition is_space (c : ascii) : bool :=
  let n := code c in
  (((9 <=? n) && (n <=? 13)) || (n =? 32) || (n =? 160))%nat.

Fixpoint trimStart (s : string) : string :=
  match s with
  | String c rest => if is_space c then trimStart rest else s
  | EmptyString => EmptyString
  end.

(** Removes trailing white space: a character is kept when it is not a
    space or when something is kept after it. *)
Fixpoint trimEnd (s : string) : string :=
  match s with
  | EmptyString => EmptyString
  | String c rest =>
      match trimEnd rest with
      | EmptyString => if is_space c then EmptyString
                       else String c EmptyString
      | kept => String c kept
      end
  end.

Definition trim (s : string) : string := trimEnd (trimStart s).

(** [s.split(",")]: the pieces between the commas, one more than there
    are commas. *)
Fixpoint split_on (sep : ascii) (s : string) : list string :=
  match s with
  | EmptyString => [EmptyString]
  | String c rest =>
      if Ascii.eqb c sep then EmptyString :: split_on sep rest
      else match split_on sep rest with
           | piece :: pieces => String c piece :: pieces
           | [] => [String c EmptyString]
           end
  end.

Definition LF : ascii := ascii_of_nat 10.
Definition CR : ascii := ascii_of_nat 13.

(** [s.split(/\r?\n/)]: a separator is a line feed, together with the
    carriage return just before it when there is one. *)
Fixpoint split_lines (s : string) : list string :=
  match s with
  | EmptyString => [EmptyString]
  | String c rest =>
      if Ascii.eqb c LF then EmptyString :: split_lines rest
      else
        match rest with
        | String c' rest' =>
            if Ascii.eqb c CR && Ascii.eqb c' LF
            then EmptyString :: split_lines rest'
            else match split_lines rest with
                 | piece :: pieces => String c piece :: pieces
                 | [] => [String c EmptyString]
                 end
        | EmptyString => [String c EmptyString]
        end
  end.

(** [Boolean(s)] on a string: the empty string is falsy. *)
Definition nonempty (s : string) : bool :=
  match s with EmptyString => false | _ => true end.

End Str.

(* ================================================================== *)
(** ** Data model *)
(* ================================================================== *)

(** A transaction identifier: the sample data and manual entries use
    strings, the CSV import uses a number. *)
Inductive ident :=
| IdString (s : string)
| IdNumber (x : float).

(** An element of [expenses]. *)
Record Transaction := mkTransaction {
  id : ident;
  date : string;
  description : string;
  amount : float;
  category : string
}.

(** An element of [monthlyTotals]. *)
Record MonthlyTotal := mkMonthlyTotal {
  month : string;
  total : float
}.

(** An element of the array returned by [linearRegressionPredict]. *)
Record Prediction := mkPrediction {
  monthIndex : nat;
  predicted : float
}.

(** An element of [goals]. *)
Record Goal := mkGoal {
  goal_id : string;
  name : string;
  target : float;
  createdAt : string
}.

(* ================================================================== *)
(** ** Categorizer *)
(* ================================================================== *)

Definition CATEGORIES : list string :=
  [ "Groceries"; "Entertainment"; "Transport"; "Dining"; "Utilities";
    "Health"; "Shopping"; "Income"; "Other" ].

(** [KEYWORD_MAP], as [Object.entries] enumerates it: string keys in
    the order of the object literal. *)
Definition KEYWORD_MAP : list (string * list string) :=
  [ ("Groceries", ["grocery"; "supermarket"; "market"; "aldi"; "walmart"]);
    ("Entertainment", ["netflix"; "movie"; "concert"; "spotify"; "game"]);
    ("Transport", ["uber"; "lyft"; "taxi"; "bus"; "train"; "fuel"; "gas"]);
    ("Dining", ["restaurant"; "cafe"; "diner"; "pizza"; "coffee"; "eat"]);
    ("Utilities", ["electric"; "water"; "gas bill"; "internet"; "phone"]);
    ("Health", ["pharmacy"; "hospital"; "doctor"; "dentist"; "clinic"]);
    ("Shopping", ["amazon"; "mall"; "clothes"; "shoe"; "store"; "shop"]);
    ("Income", ["salary"; "deposit"; "payroll"; "refund"]) ].

(** The inner loop [for (const kw of keywords)]: does some keyword occur
    in [text]? *)
Fixpoint any_keyword (text : string) (keywords : list string) : bool :=
  match keywords with
  | [] => false
  | kw :: rest => if Str.includes text kw then true
                  else any_keyword text rest
  end.

(** The outer loop [for (const [cat, keywords] of entries)]: the first
    category with a keyword in [text], if any. *)
Fixpoint first_category (text : string)
    (entries : list (string * list string)) : option string :=
  match entries with
  | [] => None
  | (cat, keywords) :: rest =>
      if any_keyword text keywords then Some cat
      else first_category text rest
  end.

(** [categorizeExpense({ description, amount })].  An absent
    description ([undefined] or [null]) is [None]. *)
Definition categorizeExpense (description : option string)
    (amount : float) : string :=
  match description with
  | None => "Other"
  | Some EmptyString => "Other"
  | Some d =>
      let text := Str.toLowerCase d in
      if JS.gt amount 0 then "Income"
      else
        match first_category text KEYWORD_MAP with
        | Some cat => cat
        | None =>
            if JS.gt (JS.Math_abs amount) 200 then "Shopping" else "Other"
        end
  end.

(** The keywords of category [cat] in [KEYWORD_MAP]. *)
Fixpoint keywords_of (cat : string)
    (entries : list (string * list string)) : list string :=
  match entries with
  | [] => []
  | (c, keywords) :: rest =>
      if String.eqb c cat then keywords else keywords_of cat rest
  end.

(** The description contains, case-insensitively, a keyword of [cat]. *)
Definition has_keyword_of (cat : string) (d : string) : bool :=
  any_keyword (Str.toLowerCase d) (keywords_of cat KEYWORD_MAP).

(* ================================================================== *)
(** ** Forecaster *)
(* ================================================================== *)

Local Open Scope float_scope.

(** [l.reduce((a, b) => a + b, 0)]. *)
Definition sum_reduce (l : list float) : float :=
  fold_left PrimFloat.add l 0.

(** [monthlyTotals.map((_, i) => i)]. *)
Definition index_list (n : nat) : list float := map JS.of_nat (seq 0 n).

(** The loop accumulating [num] and [den] over [i = 0 .. n-1]. *)
Fixpoint regression_sums (xs ys : list float) (xMean yMean : float)
    (num den : float) : float * float :=
  match xs, ys with
  | x :: xs', y :: ys' =>
      regression_sums xs' ys' xMean yMean
        (num + (x - xMean) * (y - yMean))
        (den + (x - xMean) * (x - xMean))
  | _, _ => (num, den)
  end.

(** The fitted line [(slope, intercept)] for a non-empty series. *)
Definition regression_line (monthlyTotals : list MonthlyTotal)
    : float * float :=
  let n := List.length monthlyTotals in
  let xs := index_list n in
  let ys := map total monthlyTotals in
  let xMean := sum_reduce xs / JS.of_nat n in
  let yMean := sum_reduce ys / JS.of_nat n in
  let '(num, den) := regression_sums xs ys xMean yMean 0 0 in
  let slope := if JS.strict_eq den 0 then 0 else num / den in
  let intercept := yMean - slope * xMean in
  (slope, intercept).

(** The loop [for (let i = 0; i < monthsOut; i++)] from iteration [i]
    on, with [remaining] iterations left.  The index [n + i] is an
    integer below [2^53], on which the addition of numbers is exact: it
    is computed over [nat] and read as a number by [JS.of_nat]. *)
Fixpoint push_predictions (slope intercept : float) (n i remaining : nat)
    : list Prediction :=
  match remaining with
  | O => []
  | S remaining' =>
      let xi := (n + i)%nat in
      let pred := slope * JS.of_nat xi + intercept in
      mkPrediction xi (JS.Math_max 0 pred)
        :: push_predictions slope intercept n (S i) remaining'
  end.

(** The value [pred = slope * xi + intercept] of the fitted line at
    [xi = n + i], before it is clamped. *)
Definition fitted_value (monthlyTotals : list MonthlyTotal) (i : nat)
    : float :=
  let '(slope, intercept) := regression_line monthlyTotals in
  slope * JS.of_nat (List.length monthlyTotals + i) + intercept.

Definition linearRegressionPredict (monthlyTotals : list MonthlyTotal)
    (monthsOut : nat) : list Prediction :=
  match monthlyTotals with
  | [] => map (fun i => mkPrediction i 0) (seq 0 monthsOut)
  | _ =>
      let '(slope, intercept) := regression_line monthlyTotals in
      push_predictions slope intercept (List.length monthlyTotals) 0 monthsOut
  end.

(* ================================================================== *)
(** ** Budget alert *)
(* ================================================================== *)

(** [prediction.length > 0 ? prediction[0].predicted : 0]. *)
Definition predictedNextMonth (prediction : list Prediction) : float :=
  match prediction with
  | p :: _ => predicted p
  | [] => 0
  end.

(** [predictedNextMonth > budget * (alertThresholdPercent / 100)]. *)
Definition willBreachBudget (predictedNext budget alertThresholdPercent : float)
    : bool :=
  JS.gt predictedNext (budget * (alertThresholdPercent / 100)).

(* ================================================================== *)
(** ** Goal progress *)
(* ================================================================== *)

(** The object [{ saved, pct }] returned by [progressForGoal]. *)
Record Progress := mkProgress {
  saved : float;
  pct : float
}.

(** [expenses.filter((e) => e.amount > 0).reduce((a, b) => a + b.amount, 0)]. *)
Definition positive_sum (expenses : list Transaction) : float :=
  fold_left (fun a b => a + amount b)
            (filter (fun e => JS.gt (amount e) 0) expenses) 0.

Definition progressForGoal (expenses : list Transaction) (goal : Goal)
    : Progress :=
  let saved := positive_sum expenses in
  let pct := JS.Math_min 100 (JS.Math_round ((saved / target goal) * 100)) in
  mkProgress (JS.Number_toFixed2 saved) pct.

(** The sum of the amounts that are [> 0], taken in order: the running
    sum [acc] grows by each positive amount. *)
Fixpoint sum_positive_from (acc : float) (expenses : list Transaction)
    : float :=
  match expenses with
  | [] => acc
  | e :: rest =>
      sum_positive_from (if JS.gt (amount e) 0 then acc + amount e else acc)
                        rest
  end.

Definition sum_positive_amounts (expenses : list Transaction) : float :=
  sum_positive_from 0 expenses.

(* ================================================================== *)
(** ** CSV import and monthly aggregation *)
(* ================================================================== *)

Section Host.

(** What the host environment provides. *)

(** [Number(s)] on a string. *)
Variable Number : string -> float.

(** The value of [Date.now() + Math.random()] at the [k]-th row pushed
    by one import. *)
Variable fresh_id : nat -> float.

(** The decimal renderings of [d.getFullYear()] and of
    [d.getMonth() + 1] for [d = new Date(date)], in local time. *)
Variable fullYear : string -> string.
Variable monthNumber : string -> string.

(** [a.localeCompare(b)]: negative, zero or positive. *)
Variable localeCompare : string -> string -> Z.

(** The non-empty trimmed lines of the text. *)
Definition csv_rows (text : string) : list string :=
  filter Str.nonempty (map Str.trim (Str.split_lines text)).

Definition comma : ascii := ascii_of_nat 44.

(** The transaction built from the first three fields of a row. *)
Definition row_transaction (k : nat) (parts : list string) : Transaction :=
  let date := Str.trim (nth 0 parts EmptyString) in
  let description := Str.trim (nth 1 parts EmptyString) in
  let amount := Number (Str.trim (nth 2 parts EmptyString)) in
  mkTransaction (IdNumber (fresh_id k)) date description amount
                (categorizeExpense (Some description) amount).

(** The loop [for (const r of rows)] with the array [parsed] built so
    far. *)
Fixpoint parse_rows (rows : list string) (parsed : list Transaction)
    : list Transaction :=
  match rows with
  | [] => parsed
  | r :: rest =>
      let parts := Str.split_on comma r in
      if (List.length parts <? 3)%nat then parse_rows rest parsed
      else parse_rows rest
             (parsed ++ [row_transaction (List.length parsed) parts])
  end.

(** [importCSV(text)]: the new value of [expenses]; the function itself
    returns nothing. *)
Definition importCSV (text : string) (expenses : list Transaction)
    : list Transaction :=
  parse_rows (csv_rows text) [] ++ expenses.

(** [s.padStart(2, "0")]. *)
Definition padStart2 (s : string) : string :=
  match s with
  | EmptyString => "00"%string
  | String c EmptyString => String "0"%char (String c EmptyString)
  | _ => s
  end.

(** [monthKey(date)]: the key [YYYY-MM]. *)
Definition monthKey (date : string) : string :=
  (fullYear date ++ "-" ++ padStart2 (monthNumber date))%string.

(** The object [map], as the list of its entries in insertion order
    (its keys contain a hyphen, so none is an array index). *)
Fixpoint map_get (map : list (string * float)) (key : string)
    : option float :=
  match map with
  | [] => None
  | (k, v) :: rest => if String.eqb k key then Some v else map_get rest key
  end.

Fixpoint map_set (map : list (string * float)) (key : string) (v : float)
    : list (string * float) :=
  match map with
  | [] => [(key, v)]
  | (k, x) :: rest =>
      if String.eqb k key then (k, v) :: rest
      else (k, x) :: map_set rest key v
  end.

(** [map[key] || 0]. *)
Definition map_get_or_zero (map : list (string * float)) (key : string)
    : float :=
  match map_get map key with
  | Some v => JS.or_zero v
  | None => 0
  end.

(** The loop [for (const e of expenses)] filling [map]. *)
Fixpoint fill_map (expenses : list Transaction) (map : list (string * float))
    : list (string * float) :=
  match expenses with
  | [] => map
  | e :: rest =>
      let key := monthKey (date e) in
      fill_map rest
        (map_set map key (map_get_or_zero map key + JS.or_zero (amount e)))
  end.

(** [arr.sort((a, b) => a.month.localeCompare(b.month))]: a stable sort,
    here by insertion. *)
Fixpoint sort_insert (x : MonthlyTotal) (sorted : list MonthlyTotal)
    : list MonthlyTotal :=
  match sorted with
  | [] => [x]
  | y :: rest =>
      if (0 <? localeCompare (month x) (month y))%Z
      then y :: sort_insert x rest
      else x :: sorted
  end.

Definition sort_by_month (arr : list MonthlyTotal) : list MonthlyTotal :=
  fold_right sort_insert [] arr.

Definition monthlyTotals (expenses : list Transaction) : list MonthlyTotal :=
  sort_by_month
    (map (fun entry => mkMonthlyTotal (fst entry)
                         (JS.Number_toFixed2 (snd entry)))
         (fill_map expenses [])).

(** *** The same results, told by rows and by months *)

(** A row of at least three comma-separated fields. *)
Definition has_three_fields (r : string) : bool :=
  (3 <=? List.length (Str.split_on comma r))%nat.

(** The rows that are imported, and the number of rows that are not:
    the skipped lines of the specification. *)
Definition kept_rows (text : string) : list string :=
  filter has_three_fields (csv_rows text).

Definition skippedLineCount (text : string) : nat :=
  List.length (filter (fun r => negb (has_three_fields r)) (csv_rows text)).

(** The transactions of the kept rows, numbered from [k]. *)
Fixpoint transactions_from (k : nat) (kept : list string)
    : list Transaction :=
  match kept with
  | [] => []
  | r :: rest =>
      row_transaction k (Str.split_on comma r)
        :: transactions_from (S k) rest
  end.

(** The sum of one month: the amounts of the transactions of month [k],
    in order, added to [acc]; a falsy running sum or amount counts
    as 0. *)
Fixpoint month_sum_from (k : string) (acc : float)
    (expenses : list Transaction) : float :=
  match expenses with
  | [] => acc
  | e :: rest =>
      month_sum_from k
        (if String.eqb (monthKey (date e)) k
         then JS.or_zero acc + JS.or_zero (amount e)
         else acc)
        rest
  end.

Definition month_sum (k : string) (expenses : list Transaction) : float :=
  month_sum_from k 0 expenses.

(** The month keys of the transactions that are not in [seen], each
    once, in the order of their first transaction. *)
Fixpoint new_keys (seen : list string) (expenses : list Transaction)
    : list string :=
  match expenses with
  | [] => []
  | e :: rest =>
      let k := monthKey (date e) in
      if existsb (String.eqb k) seen then new_keys seen rest
      else k :: new_keys (seen ++ [k]) rest
  end.

Definition month_keys (expenses : list Transaction) : list string :=
  new_keys [] expenses.

End Host.


(* ================================================================== *)
(** ** The rest of the [App] component *)
(* ================================================================== *)

(** *** Back-filling categories (the effect run once at start) *)

(** [{ ...e, category: c }]. *)
Definition with_category (e : Transaction) (c : string) : Transaction :=
  mkTransaction (id e) (date e) (description e) (amount e) c.

(** [expenses.map((e) => ...)] together with the flag [changed] that the
    callback sets; [!e.category] holds for the empty string, which also
    stands for an absent category. *)
Fixpoint categorize_missing (expenses : list Transaction) (changed : bool)
    : bool * list Transaction :=
  match expenses with
  | [] => (changed, [])
  | e :: rest =>
      if Str.nonempty (category e) then
        let '(changed', updated) := categorize_missing rest changed in
        (changed', e :: updated)
      else
        let '(changed', updated) := categorize_missing rest true in
        (changed',
         with_category e (categorizeExpense (Some (description e)) (amount e))
           :: updated)
  end.

(** The new value of [expenses] after the effect: [setExpenses(updated)]
    runs only [if (changed)]. *)
Definition autoCategorize (expenses : list Transaction) : list Transaction :=
  let '(changed, updated) := categorize_missing expenses false in
  if changed then updated else expenses.

(** *** Adding one transaction *)

(** [addExpense(exp)]: [now_id] is [Date.now().toString()]. *)
Definition addExpense (now_id : string) (exp : Transaction)
    (s : list Transaction) : list Transaction :=
  mkTransaction (IdString now_id) (date exp) (description exp) (amount exp)
                (category exp) :: s.

(** The click handler of the [Add] button.  [desc] is what the first
    [prompt] returned ([None] when it was cancelled), [amt] what
    [parseFloat] made of the second, [today] is
    [new Date().toISOString().slice(0, 10)]. *)
Definition quickAdd (today now_id : string) (desc : option string)
    (amt : float) (s : list Transaction) : list Transaction :=
  match desc with
  | Some d =>
      if Str.nonempty d && negb (JS.isNaN amt) then
        addExpense now_id
          (mkTransaction (IdString EmptyString) today d amt
                         (categorizeExpense (Some d) amt))
          s
      else s
  | None => s
  end.

(** *** Goals *)

(** The state behind the goal form: the goals and the two inputs. *)
Record GoalForm := mkGoalForm {
  goals : list Goal;
  newGoalName : string;
  newGoalAmount : float
}.

(** [addGoal()]: [now_id] is [Date.now().toString()] and [now_iso] is
    [new Date().toISOString()]. *)
Definition addGoal (now_id now_iso : string) (st : GoalForm) : GoalForm :=
  if negb (Str.nonempty (newGoalName st))
     || negb (JS.truthy (newGoalAmount st))
  then st
  else
    mkGoalForm
      (mkGoal now_id (newGoalName st) (newGoalAmount st) now_iso :: goals st)
      EmptyString 0.

(** *** Values derived for the dashboard *)

(** [monthlyTotals.length ? Math.abs(monthlyTotals[length - 1].total) : 0]. *)
Definition latestMonthTotal (totals : list MonthlyTotal) : float :=
  match totals with
  | [] => 0
  | _ => JS.Math_abs (total (last totals (mkMonthlyTotal EmptyString 0)))
  end.

(** The alert shown for a list of monthly totals: the forecast for three
    months, its first value, and the comparison with the threshold. *)
Definition budgetAlert (totals : list MonthlyTotal)
    (budget alertThresholdPercent : float) : bool :=
  willBreachBudget
    (predictedNextMonth (linearRegressionPredict totals 3))
    budget alertThresholdPercent.

(** A point of the line chart. *)
Record ChartPoint := mkChartPoint {
  point_name : string;
  point_total : float
}.

(** The decimal digits of an index, as a template literal writes it. *)
Definition decimal (n : nat) : string :=
  NilEmpty.string_of_uint (Nat.to_uint n).

(** [prediction.map((p, i) => ({ name: `P+${i + 1}`, total: p.predicted }))]
    from index [i] on. *)
Fixpoint prediction_points (i : nat) (prediction : list Prediction)
    : list ChartPoint :=
  match prediction with
  | [] => []
  | p :: rest =>
      mkChartPoint ("P+" ++ decimal (i + 1))%string (predicted p)
        :: prediction_points (S i) rest
  end.

(** The [data] of the line chart: the months, then the predictions. *)
Definition chartData (totals : list MonthlyTotal)
    (prediction : list Prediction) : list ChartPoint :=
  map (fun m => mkChartPoint (month m) (JS.Math_abs (total m))) totals
  ++ prediction_points 0 prediction.

(** *** Notions used to state the properties *)

(** The number of occurrences of a character. *)
Fixpoint count_char (c : ascii) (s : string) : nat :=
  match s with
  | EmptyString => O
  | String a rest =>
      if Ascii.eqb a c then S (count_char c rest) else count_char c rest
  end.

(** Every character of the string is white space. *)
Fixpoint all_space (s : string) : bool :=
  match s with
  | EmptyString => true
  | String c rest => Str.is_space c && all_space rest
  end.

(** The string does not start with white space. *)
Definition starts_clean (s : string) : bool :=
  match s with
  | EmptyString => true
  | String c _ => negb (Str.is_space c)
  end.

(** The transaction with a falsy amount ([0], [-0], NaN) replaced
    by [0]. *)
Definition zero_falsy_amount (e : Transaction) : Transaction :=
  mkTransaction (id e) (date e) (description e) (JS.or_zero (amount e))
                (category e).

(** The values that are not below zero: the zeros, the positive numbers,
    [+Infinity], and NaN. *)
Definition SF_not_negative (X : spec_float) : Prop :=
  match X with
  | S754_zero _ | S754_infinity false | S754_finite false _ _ | S754_nan =>
      True
  | _ => False
  end.

(* ================================================================== *)
(** ** Example host and data *)
(* ================================================================== *)

(** A host in UTC reading ISO dates [YYYY-MM-DD]: the year is the first
    four characters, the month the next two without a leading zero. *)
Definition utc_fullYear (date : string) : string := substring 0 4 date.

Definition utc_monthNumber (date : string) : string :=
  match substring 5 2 date with
  | String "0" rest => rest
  | mm => mm
  end.

(** A comparison of strings by code units. *)
Definition code_unit_compare (a b : string) : Z :=
  match String.compare a b with
  | Lt => (-1)%Z
  | Eq => 0%Z
  | Gt => 1%Z
  end.

(** The text of the specification's example: a good row, a line feed
    and a row without commas. *)
Definition example_csv : string :=
  ("2025-01-05,Coffee shop,-4.50" ++ String Str.LF "badrow")%string.

(* ================================================================== *)
(** ** Binary64 representations used in the proofs *)
(* ================================================================== *)

(** [1] and [100] as [spec_float]s. *)
Definition SF_one : spec_float := S754_finite false 4503599627370496 (-52).

Definition SF_100 : spec_float := S754_finite false 7036874417766400 (-46).

(** The canonical representation of a positive integer below [2^53]. *)
Definition SF_of_pos (p : positive) : spec_float :=
  let d := Zpos (digits2_pos p) in
  S754_finite false (fst (shl_align p 0 (d - 53))) (d - 53).

(** The non-negative values: [+0], the positive finite numbers and
    [+Infinity]. *)
Definition SF_nonneg (X : spec_float) : Prop :=
  match X with
  | S754_zero false | S754_infinity false | S754_finite false _ _ => True
  | _ => False
  end.

(** The integers up to 128, checked one by one. *)
Definition small_percent_check (k : Z) : bool :=
  PrimFloat.Leibniz.eqb (JS.Math_min 100 (JS.of_Z k)) (JS.of_Z (Z.min 100 k))
  && PrimFloat.Leibniz.eqb (JS.Math_round (JS.of_Z k)) (JS.of_Z k).

(* ================================================================== *)
(** ** Facts about binary64 comparisons *)
(* ================================================================== *)

Section Comparisons.

Lemma Prim2SF_zero : Prim2SF 0 = S754_zero false.
Proof. reflexivity. Qed.

(** A number that is [<= 0] is not [> 0]. *)
Lemma nonpositive_not_gt (a : float) :
  PrimFloat.leb a 0 = true -> JS.gt a 0 = false.
Proof.
  unfold JS.gt. rewrite FloatAxioms.leb_spec, FloatAxioms.ltb_spec, Prim2SF_zero.
  unfold SFleb, SFltb.
  destruct (Prim2SF a) as [s | s | | s m e]; try destruct s; simpl;
    congruence.
Qed.

(** [SFcompare] answers [Eq] only on operands that compare [Eq] the other
    way round too. *)
Lemma SFcompare_Eq_sym (x y : spec_float) :
  SFcompare x y = Some Eq -> SFcompare y x = Some Eq.
Proof.
  destruct x as [sx | sx | | sx mx ex], y as [sy | sy | | sy my ey];
    simpl; try congruence;
    try (destruct sx; congruence); try (destruct sy; congruence);
    try (destruct sx, sy; congruence).
  destruct sx, sy; try congruence.
  - destruct (Z.compare ex ey) eqn:He; try congruence.
    apply Z.compare_eq in He. subst ey. rewrite Z.compare_refl.
    intros H. injection H as H.
    destruct (Pos.compare_cont Eq mx my) eqn:Hm; try discriminate.
    apply Pos.compare_eq in Hm. subst my.
    now rewrite Pos.compare_cont_refl.
  - destruct (Z.compare ex ey) eqn:He; try congruence.
    apply Z.compare_eq in He. subst ey. rewrite Z.compare_refl.
    intros H. injection H as H.
    apply Pos.compare_eq in H. subst my.
    now rewrite Pos.compare_cont_refl.
Qed.

(** Equal numbers are not strictly ordered. *)
Lemma strict_eq_not_gt (a b : float) :
  JS.strict_eq a b = true -> JS.gt a b = false.
Proof.
  unfold JS.strict_eq, JS.gt. rewrite FloatAxioms.eqb_spec, FloatAxioms.ltb_spec.
  unfold SFeqb, SFltb. intros H.
  destruct (SFcompare (Prim2SF a) (Prim2SF b)) as [[ | | ] | ] eqn:Hc;
    try discriminate.
  now rewrite (SFcompare_Eq_sym _ _ Hc).
Qed.

(** A strict inequality gives the large one. *)
Lemma ltb_leb (a b : float) :
  PrimFloat.ltb a b = true -> PrimFloat.leb a b = true.
Proof.
  rewrite FloatAxioms.ltb_spec, FloatAxioms.leb_spec. unfold SFltb, SFleb.
  destruct (SFcompare (Prim2SF a) (Prim2SF b)) as [[ | | ] | ];
    congruence.
Qed.

(** [Math.max(0, x)] is [>= 0] unless it is NaN. *)
Lemma Math_max_zero_ge (x : float) :
  JS.ge (JS.Math_max 0 x) 0 = true \/ JS.isNaN (JS.Math_max 0 x) = true.
Proof.
  unfold JS.Math_max, JS.ge, JS.isNaN.
  change (is_nan 0) with false. cbn [orb].
  destruct (is_nan x) eqn:Hn.
  - right. reflexivity.
  - left. destruct (PrimFloat.ltb 0 x) eqn:Hlt.
    + now apply ltb_leb.
    + destruct (PrimFloat.ltb x 0); reflexivity.
Qed.

(** [Math.max(0, x)] is NaN for NaN, [x] for a positive [x], and [0]
    for the rest. *)
Lemma Math_max_zero_cases (x : float) :
  (JS.isNaN x = true -> JS.isNaN (JS.Math_max 0 x) = true)
  /\ (JS.isNaN x = false ->
      JS.ge (JS.Math_max 0 x) 0 = true
      /\ JS.Math_max 0 x = if JS.gt x 0 then x else 0).
Proof.
  unfold JS.Math_max, JS.ge, JS.gt, JS.isNaN.
  change (is_nan 0) with false. cbn [orb].
  destruct (is_nan x); (split; [intros H | intros H]);
    try discriminate H; try reflexivity.
  destruct (PrimFloat.ltb 0 x) eqn:Hlt.
  - split; [now apply ltb_leb | reflexivity].
  - destruct (PrimFloat.ltb x 0); split; reflexivity.
Qed.

End Comparisons.

(* ================================================================== *)
(** ** Facts about binary64 arithmetic *)
(* ================================================================== *)

Section Arithmetic.

Local Open Scope Z_scope.

Lemma fexp_eq x : fexp prec emax x = Z.max (x - 53) (-1074).
Proof. reflexivity. Qed.

Lemma bounded_inv m e :
  bounded prec emax m e = true ->
  Z.max (Zpos (digits2_pos m) + e - 53) (-1074) = e /\ e <= 971.
Proof.
  unfold bounded, canonical_mantissa. rewrite fexp_eq.
  intros H. apply andb_prop in H. destruct H as [H1 H2].
  apply Z.eqb_eq in H1. apply Z.leb_le in H2. 
  change (emax - prec) with 971 in H2. split; assumption.
Qed.

(** A canonical mantissa is not shifted. *)
Lemma shr_fexp_canonical m e :
  bounded prec emax m e = true ->
  shr_fexp prec emax (Zpos m) e loc_Exact
  = (Build_shr_record (Zpos m) false false, e).
Proof.
  intros Hb. destruct (bounded_inv _ _ Hb) as [Hc He].
  unfold shr_fexp. rewrite fexp_eq. simpl Zdigits2. rewrite Hc.
  rewrite Z.sub_diag. reflexivity.
Qed.

(** Rounding a canonical mantissa changes nothing. *)
Lemma binary_round_aux_canonical s m e :
  bounded prec emax m e = true ->
  binary_round_aux prec emax s (Zpos m) e loc_Exact = S754_finite s m e.
Proof.
  intros Hb. destruct (bounded_inv _ _ Hb) as [Hc He].
  unfold binary_round_aux.
  rewrite (shr_fexp_canonical _ _ Hb).
  simpl shr_m. simpl loc_of_shr_record. simpl round_nearest_even.
  rewrite (shr_fexp_canonical _ _ Hb).
  simpl shr_m. change (emax - prec) with 971.
  apply Z.leb_le in He. now rewrite He.
Qed.

Lemma div_eucl_exact a b q :
  0 < b -> a = q * b -> Z.div_eucl a b = (q, 0).
Proof.
  intros Hb Ha.
  rewrite (surjective_pairing (Z.div_eucl a b)).
  change (fst (Z.div_eucl a b)) with (a / b).
  change (snd (Z.div_eucl a b)) with (a mod b).
  subst a. rewrite Z.div_mul by lia. rewrite Z.mod_mul by lia. reflexivity.
Qed.

Lemma Prim2SF_one : Prim2SF 1 = SF_one.
Proof. reflexivity. Qed.

(** Dividing by one changes nothing. *)
Lemma SFdiv_one (X : spec_float) :
  valid_binary X = true -> SFdiv prec emax X SF_one = X.
Proof.
  destruct X as [s | s | | s m e]; simpl valid_binary; intros Hb;
    try (destruct s; reflexivity); try reflexivity.
  destruct (bounded_inv _ _ Hb) as [Hc He].
  unfold SF_one, SFdiv, SFdiv_core_binary.
  change (Zdigits2 4503599627370496) with 53.
  simpl Zdigits2. rewrite fexp_eq.
  rewrite xorb_false_r.
  destruct (Z.eq_dec e (-1074)) as [Hsub | Hnorm].
  - (* the smallest exponent *)
    replace (Z.min (Z.max (Zpos (digits2_pos m) + e - (53 + -52) - 53) (-1074))
                   (e - -52)) with e by lia.
    replace (e - -52 - e) with 52 by lia.
    rewrite (div_eucl_exact (Z.shiftl (Zpos m) 52) 4503599627370496 (Zpos m));
      [ | lia | rewrite Z.shiftl_mul_pow2 by lia; reflexivity ].
    change (new_location 4503599627370496 0) with loc_Exact.
    now apply binary_round_aux_canonical.
  - (* a normal number: 53 digits *)
    assert (Hd : Zpos (digits2_pos m) = 53) by lia.
    replace (Z.min (Z.max (Zpos (digits2_pos m) + e - (53 + -52) - 53) (-1074))
                   (e - -52)) with (e - 1) by lia.
    replace (e - -52 - (e - 1)) with 53 by lia.
    rewrite (div_eucl_exact (Z.shiftl (Zpos m) 53) 4503599627370496 (Zpos m~0));
      [ | lia | rewrite Z.shiftl_mul_pow2 by lia; lia ].
    change (new_location 4503599627370496 0) with loc_Exact.
    unfold binary_round_aux.
    assert (Hshr : shr_fexp prec emax (Zpos m~0) (e - 1) loc_Exact
                   = (Build_shr_record (Zpos m) false false, e)).
    { unfold shr_fexp. rewrite fexp_eq. simpl Zdigits2.
      replace (Z.max (Zpos (Pos.succ (digits2_pos m)) + (e - 1) - 53) (-1074)
               - (e - 1)) with 1 by lia.
      simpl. f_equal. lia. }
    rewrite Hshr. simpl shr_m. simpl loc_of_shr_record.
    simpl round_nearest_even.
    rewrite (shr_fexp_canonical _ _ Hb).
    simpl shr_m. change (emax - prec) with 971.
    apply Z.leb_le in He. now rewrite He.
Qed.

Lemma div_one (x : float) : (x / 1)%float = x.
Proof.
  apply Prim2SF_inj. rewrite FloatAxioms.div_spec, Prim2SF_one.
  apply SFdiv_one, Prim2SF_valid.
Qed.

(** Integers as numbers. *)

Lemma digits2_pos_size p : digits2_pos p = Pos.size p.
Proof. induction p; simpl; now rewrite ?IHp. Qed.

Lemma digits2_pos_iter_xO p n :
  digits2_pos (Pos.iter xO p n) = (digits2_pos p + n)%positive.
Proof.
  induction n as [ | n IH] using Pos.peano_ind.
  - simpl. lia.
  - rewrite Pos.iter_succ. simpl. rewrite IH. lia.
Qed.

Lemma shl_align_digits p e0 :
  e0 <= 0 ->
  Zpos (digits2_pos (fst (shl_align p 0 e0))) = Zpos (digits2_pos p) - e0
  /\ snd (shl_align p 0 e0) = e0.
Proof.
  intros He0. unfold shl_align.
  destruct (e0 - 0) as [ | q | q] eqn:Hq; simpl fst; simpl snd.
  - lia.
  - lia.
  - rewrite digits2_pos_iter_xO. lia.
Qed.

Lemma binary_normalize_small p :
  Zpos (digits2_pos p) <= 53 ->
  binary_normalize prec emax (Zpos p) 0 false = SF_of_pos p.
Proof.
  intros Hd. unfold binary_normalize, binary_round, SF_of_pos.
  rewrite fexp_eq.
  replace (Z.max (Zpos (digits2_pos p) + 0 - 53) (-1074))
    with (Zpos (digits2_pos p) - 53) by lia.
  remember (Zpos (digits2_pos p) - 53) as e0 eqn:He0.
  assert (Hle : e0 <= 0) by lia.
  destruct (shl_align_digits p e0 Hle) as [Hmz Hez].
  destruct (shl_align p 0 e0) as [mz ez]. simpl fst in *. simpl snd in *.
  subst ez.
  apply binary_round_aux_canonical.
  unfold bounded, canonical_mantissa. rewrite fexp_eq.
  apply andb_true_intro. split.
  - apply Z.eqb_eq. lia.
  - apply Z.leb_le. change (emax - prec) with 971. lia.
Qed.

Lemma digits2_pos_le p n :
  Zpos p < 2 ^ n -> 0 <= n -> Zpos (digits2_pos p) <= n.
Proof.
  intros Hp Hn. rewrite digits2_pos_size.
  destruct (Z_le_gt_dec (Zpos (Pos.size p)) n) as [H | H]; [assumption | ].
  exfalso.
  assert (Hle := Pos.size_le p).
  assert (2 ^ n * 2 <= 2 ^ Zpos (Pos.size p)).
  { replace (2 ^ n * 2) with (2 ^ (n + 1)) by (rewrite Z.pow_add_r; lia).
    apply Z.pow_le_mono_r; lia. }
  assert (Hpow : Zpos (2 ^ Pos.size p) = 2 ^ Zpos (Pos.size p)).
  { now rewrite Pos2Z.inj_pow. }
  lia.
Qed.

Lemma Prim2SF_of_pos p :
  Zpos p < 2 ^ 53 ->
  Prim2SF (of_uint63 (Uint63.of_Z (Zpos p))) = SF_of_pos p.
Proof.
  intros Hp. rewrite of_uint63_spec, Uint63.of_Z_spec.
  rewrite Z.mod_small.
  - apply binary_normalize_small. apply digits2_pos_le; lia.
  - split; [lia | ]. change wB with (2 ^ 63). 
    apply Z.lt_trans with (2 ^ 53); [assumption | reflexivity].
Qed.

Lemma shr_1_nonneg mrs : (0 <= shr_m mrs)%Z -> (0 <= shr_m (shr_1 mrs))%Z.
Proof.
  destruct mrs as [m r s]. simpl shr_m at 1. intros Hm.
  destruct m as [ | [p | p | ] | p]; simpl; lia.
Qed.

Lemma iter_shr_1_nonneg n :
  forall mrs, (0 <= shr_m mrs)%Z -> (0 <= shr_m (iter_pos shr_1 n mrs))%Z.
Proof.
  induction n as [n IH | n IH | ]; intros mrs Hm; simpl.
  - apply IH, IH, shr_1_nonneg, Hm.
  - apply IH, IH, Hm.
  - apply shr_1_nonneg, Hm.
Qed.

Lemma shr_fexp_nonneg m e l :
  (0 <= m)%Z -> (0 <= shr_m (fst (shr_fexp prec emax m e l)))%Z.
Proof.
  intros Hm. unfold shr_fexp, shr.
  assert (H0 : (0 <= shr_m (shr_record_of_loc m l))%Z)
    by (destruct l as [ | [ | | ]]; exact Hm).
  destruct (fexp prec emax (Zdigits2 m + e) - e)%Z; simpl fst;
    try exact H0.
  now apply iter_shr_1_nonneg.
Qed.

Lemma round_nearest_even_nonneg m l :
  (0 <= m)%Z -> (0 <= round_nearest_even m l)%Z.
Proof.
  intros Hm. destruct l as [ | [ | | ]]; simpl; try lia.
  destruct (Z.even m); lia.
Qed.

(** Rounding a non-negative mantissa with sign [s] gives a zero, a
    finite number or an infinity of sign [s], never NaN. *)
Lemma binary_round_aux_sign s m e l :
  (0 <= m)%Z ->
  match binary_round_aux prec emax s m e l with
  | S754_zero s' | S754_infinity s' | S754_finite s' _ _ => s' = s
  | S754_nan => False
  end.
Proof.
  intros Hm. unfold binary_round_aux.
  assert (H1 := shr_fexp_nonneg m e l Hm).
  destruct (shr_fexp prec emax m e l) as [mrs' e']. simpl fst in H1.
  assert (H2 := shr_fexp_nonneg _ e' loc_Exact
                  (round_nearest_even_nonneg _ (loc_of_shr_record mrs') H1)).
  destruct (shr_fexp prec emax
              (round_nearest_even (shr_m mrs') (loc_of_shr_record mrs'))
              e' loc_Exact) as [mrs'' e''].
  simpl fst in H2.
  destruct (shr_m mrs'') as [ | p | p]; try lia; try reflexivity.
  destruct (e'' <=? emax - prec)%Z; reflexivity.
Qed.

Lemma binary_round_aux_nonneg m e l :
  (0 <= m)%Z -> SF_nonneg (binary_round_aux prec emax false m e l).
Proof.
  intros Hm. assert (H := binary_round_aux_sign false m e l Hm).
  destruct (binary_round_aux prec emax false m e l); simpl;
    try subst; try exact I; contradiction.
Qed.

Lemma SFadd_nonneg X Y :
  SF_nonneg X -> SF_nonneg Y -> SF_nonneg (SFadd prec emax X Y).
Proof.
  destruct X as [[ | ] | [ | ] | | [ | ] mx ex];
    destruct Y as [[ | ] | [ | ] | | [ | ] my ey];
    simpl SF_nonneg; try contradiction; intros _ _; try exact I.
  unfold SFadd, binary_normalize, cond_Zopp.
  cbn [Z.add]. unfold binary_round.
  destruct (shl_align _ _ _) as [mz ez].
  apply binary_round_aux_nonneg. lia.
Qed.

(** Multiplying a non-negative number by a finite positive one. *)
Lemma SFmul_nonneg X my ey :
  SF_nonneg X ->
  SF_nonneg (SFmul prec emax X (S754_finite false my ey)).
Proof.
  destruct X as [[ | ] | [ | ] | | [ | ] mx ex];
    simpl SF_nonneg; try contradiction; intros _; try exact I.
  unfold SFmul. cbn [xorb]. apply binary_round_aux_nonneg. lia.
Qed.

(** Dividing a non-negative number by a finite positive one. *)
Lemma SFdiv_nonneg X my ey :
  SF_nonneg X ->
  SF_nonneg (SFdiv prec emax X (S754_finite false my ey)).
Proof.
  destruct X as [[ | ] | [ | ] | | [ | ] mx ex];
    simpl SF_nonneg; try contradiction; intros _; try exact I.
  unfold SFdiv, SFdiv_core_binary. cbn [xorb].
  set (m' := match _ with Zpos _ => Z.shiftl (Zpos mx) _ | Z0 => Zpos mx
                          | Zneg _ => 0%Z end).
  assert (Hm' : (0 <= m')%Z).
  { unfold m'. destruct (_ - _)%Z; try lia. apply Z.shiftl_nonneg. lia. }
  assert (Hq : (0 <= fst (Z.div_eucl m' (Zpos my)))%Z).
  { change (fst (Z.div_eucl m' (Zpos my))) with (m' / Zpos my)%Z.
    apply Z.div_pos; lia. }
  destruct (Z.div_eucl m' (Zpos my)) as [q r]. simpl fst in Hq.
  now apply binary_round_aux_nonneg.
Qed.

Local Open Scope float_scope.

(** A finite strictly positive number. *)
Lemma positive_finite_SF (x : float) :
  JS.gt x 0 = true -> JS.isFinite x = true ->
  exists m e, Prim2SF x = S754_finite false m e.
Proof.
  unfold JS.gt, JS.isFinite.
  rewrite !FloatAxioms.ltb_spec, abs_spec, Prim2SF_zero.
  change (Prim2SF infinity) with (S754_infinity false).
  unfold SFltb.
  destruct (Prim2SF x) as [[ | ] | [ | ] | | [ | ] m e]; simpl;
    try discriminate.
  intros _ _. now exists m, e.
Qed.

Lemma positive_SF_nonneg (x : float) :
  JS.gt x 0 = true -> SF_nonneg (Prim2SF x).
Proof.
  unfold JS.gt. rewrite FloatAxioms.ltb_spec, Prim2SF_zero. unfold SFltb.
  destruct (Prim2SF x) as [[ | ] | [ | ] | | [ | ] m e]; simpl;
    try discriminate; intros _; exact I.
Qed.

Lemma add_nonneg (x y : float) :
  SF_nonneg (Prim2SF x) -> SF_nonneg (Prim2SF y) ->
  SF_nonneg (Prim2SF (x + y)).
Proof. rewrite FloatAxioms.add_spec. apply SFadd_nonneg. Qed.

(** A finite number is not NaN. *)
Lemma finite_not_NaN (x : float) s m e :
  Prim2SF x = S754_finite s m e -> is_nan x = false.
Proof.
  intros H. unfold is_nan. rewrite FloatAxioms.eqb_spec, H.
  unfold SFeqb, SFcompare.
  rewrite Z.compare_refl, Pos.compare_cont_refl. now destruct s.
Qed.

(** The mantissa of a number lies between powers of two given by its
    number of digits. *)
Lemma digits2_pos_bounds (m : positive) :
  (2 ^ (Zpos (digits2_pos m) - 1) <= Zpos m < 2 ^ Zpos (digits2_pos m))%Z.
Proof.
  rewrite digits2_pos_size.
  assert (Hgt := Pos.size_gt m). assert (Hle := Pos.size_le m).
  assert (Hpow : Zpos (2 ^ Pos.size m) = (2 ^ Zpos (Pos.size m))%Z)
    by now rewrite Pos2Z.inj_pow.
  assert (Hsplit : (2 ^ Zpos (Pos.size m)
                    = 2 * 2 ^ (Zpos (Pos.size m) - 1))%Z).
  { rewrite <- (Z.pow_succ_r 2) by lia. f_equal. lia. }
  lia.
Qed.

Lemma bounded_mantissa_lt m e :
  bounded prec emax m e = true -> (Zpos m < 2 ^ 53)%Z.
Proof.
  intros Hb. destruct (bounded_inv _ _ Hb) as [Hc _].
  destruct (digits2_pos_bounds m) as [_ Hlt].
  apply Z.lt_le_trans with (1 := Hlt). apply Z.pow_le_mono_r; lia.
Qed.

Lemma bounded_normal_mantissa_ge m e :
  bounded prec emax m e = true -> (-1074 < e)%Z -> (2 ^ 52 <= Zpos m)%Z.
Proof.
  intros Hb He. destruct (bounded_inv _ _ Hb) as [Hc _].
  destruct (digits2_pos_bounds m) as [Hle _].
  replace (Zpos (digits2_pos m) - 1)%Z with 52%Z in Hle by lia.
  exact Hle.
Qed.

Lemma pos_compare_lt (a b : positive) :
  (Zpos a < Zpos b)%Z -> Pos.compare a b = Lt.
Proof. intros H. apply Pos.compare_lt_iff. lia. Qed.

Lemma pos_compare_gt (a b : positive) :
  (Zpos b < Zpos a)%Z -> Pos.compare a b = Gt.
Proof. intros H. apply Pos.compare_gt_iff. lia. Qed.

Lemma Z_compare_lt (a b : Z) : (a < b)%Z -> Z.compare a b = Lt.
Proof. intros H. now apply Z.compare_lt_iff. Qed.

Lemma Z_compare_gt (a b : Z) : (b < a)%Z -> Z.compare a b = Gt.
Proof. intros H. now apply Z.compare_gt_iff. Qed.

(** Comparing two positive finite numbers: exponents first, then
    mantissas. *)
Lemma ltb_finite_pos (x y : float) m1 e1 m2 e2 :
  Prim2SF x = S754_finite false m1 e1 ->
  Prim2SF y = S754_finite false m2 e2 ->
  PrimFloat.ltb x y
  = match Z.compare e1 e2 with
    | Lt => true
    | Gt => false
    | Eq => match Pos.compare m1 m2 with Lt => true | _ => false end
    end.
Proof.
  intros Hx Hy. rewrite FloatAxioms.ltb_spec, Hx, Hy.
  unfold SFltb, SFcompare, Pos.compare.
  destruct (Z.compare e1 e2); try reflexivity.
Qed.

Lemma Prim2SF_100 : Prim2SF 100 = SF_100.
Proof. reflexivity. Qed.

(** [Math.min(100, r)] when [r] is below 100. *)
Lemma Math_min_100_below (r : float) m e :
  Prim2SF r = S754_finite false m e ->
  (e < -46 \/ (e = -46 /\ Zpos m < 7036874417766400))%Z ->
  JS.Math_min 100 r = r.
Proof.
  intros Hr He. unfold JS.Math_min.
  rewrite (finite_not_NaN _ _ _ _ Hr). change (is_nan 100) with false.
  cbn [orb]. rewrite (ltb_finite_pos 100 r _ _ _ _ Prim2SF_100 Hr).
  rewrite (ltb_finite_pos r 100 _ _ _ _ Hr Prim2SF_100).
  destruct He as [He | [He Hm]].
  - rewrite (Z_compare_gt (-46) e) by lia.
    now rewrite (Z_compare_lt e (-46)) by lia.
  - subst e. rewrite Z.compare_refl.
    rewrite (pos_compare_gt _ m) by exact Hm.
    now rewrite (pos_compare_lt m _) by exact Hm.
Qed.

Lemma small_percent_table :
  forallb small_percent_check (map Z.of_nat (seq 0 129)) = true.
Proof. vm_compute. reflexivity. Qed.

Lemma small_percent (z : Z) :
  (0 <= z <= 128)%Z ->
  JS.Math_min 100 (JS.of_Z z) = JS.of_Z (Z.min 100 z)
  /\ JS.Math_round (JS.of_Z z) = JS.of_Z z.
Proof.
  intros Hz.
  assert (Hin : In z (map Z.of_nat (seq 0 129))).
  { apply in_map_iff. exists (Z.to_nat z). split; [lia | ].
    apply in_seq. lia. }
  assert (H := proj1 (forallb_forall _ _) small_percent_table z Hin).
  unfold small_percent_check in H. apply andb_prop in H.
  destruct H as [H1 H2].
  split; now apply FloatAxioms.Leibniz.eqb_spec.
Qed.

Lemma of_Z_zero : JS.of_Z 0 = 0.
Proof. reflexivity. Qed.

(** [Math.round] on a positive finite number with a fractional part. *)
Lemma Math_round_fraction (v : float) m e :
  Prim2SF v = S754_finite false m e -> (e < 0)%Z ->
  JS.Math_round v
  = JS.of_Z ((2 * Zpos m + 2 ^ (- e)) / (2 * 2 ^ (- e))).
Proof.
  intros Hv He. unfold JS.Math_round. rewrite Hv.
  replace (0 <=? e)%Z with false by (symmetry; apply Z.leb_gt; lia).
  cbv zeta. cbn [cond_Zopp].
  destruct (Z.eqb_spec ((2 * Zpos m + 2 ^ (- e)) / (2 * 2 ^ (- e))) 0)
    as [-> | Hne]; reflexivity.
Qed.

Lemma Math_round_integer (v : float) s m e :
  Prim2SF v = S754_finite s m e -> (0 <= e)%Z -> JS.Math_round v = v.
Proof.
  intros Hv He. unfold JS.Math_round. rewrite Hv.
  now replace (0 <=? e)%Z with true by (symmetry; apply Z.leb_le; lia).
Qed.

(** Bounds on [floor (m / d + 1/2)]. *)
Lemma round_quotient_bounds (m d lo hi : Z) :
  (0 < d)%Z -> (2 * lo * d <= 2 * m + d)%Z -> (2 * m + d < 2 * (hi + 1) * d)%Z ->
  (lo <= (2 * m + d) / (2 * d) <= hi)%Z.
Proof.
  intros Hd Hlo Hhi. split.
  - apply Z.div_le_lower_bound; lia.
  - apply Z.lt_succ_r. apply Z.div_lt_upper_bound; lia.
Qed.

(** [Math.min(100, r)] when [r] is above 100. *)
Lemma Math_min_100_over (r : float) m e :
  Prim2SF r = S754_finite false m e ->
  (-46 < e \/ (e = -46 /\ 7036874417766400 < Zpos m))%Z ->
  JS.Math_min 100 r = 100.
Proof.
  intros Hr He. unfold JS.Math_min.
  rewrite (finite_not_NaN _ _ _ _ Hr). change (is_nan 100) with false.
  cbn [orb]. rewrite (ltb_finite_pos 100 r _ _ _ _ Prim2SF_100 Hr).
  destruct He as [He | [He Hm]].
  - now rewrite (Z_compare_lt (-46) e) by lia.
  - subst e. rewrite Z.compare_refl.
    now rewrite (pos_compare_lt _ m) by exact Hm.
Qed.

Lemma pow2_ge (a b : Z) : (0 <= a <= b)%Z -> (2 ^ a <= 2 ^ b)%Z.
Proof. intros H. apply Z.pow_le_mono_r; lia. Qed.

(** An integer from 128 to [2^53] is a number above 100. *)
Lemma Math_min_100_of_Z_large (z : Z) :
  (128 <= z < 9007199254740992)%Z -> JS.Math_min 100 (JS.of_Z z) = 100.
Proof.
  intros Hz. destruct z as [ | p | p]; try lia.
  cbn [JS.of_Z].
  assert (Hsf := Prim2SF_of_pos p).
  change (2 ^ 53)%Z with 9007199254740992%Z in Hsf.
  specialize (Hsf (proj2 Hz)). unfold SF_of_pos in Hsf.
  apply Math_min_100_over with (1 := Hsf). left.
  destruct (digits2_pos_bounds p) as [_ Hlt].
  destruct (Z_le_gt_dec (Zpos (digits2_pos p)) 7) as [Hd | Hd]; [ | lia].
  exfalso.
  assert (Hpow := pow2_ge (Zpos (digits2_pos p)) 7 ltac:(lia)).
  change (2 ^ 7)%Z with 128%Z in Hpow. lia.
Qed.

(** The percentage of a non-negative number: rounding and capping at
    100 give an integer from 0 to 100, whichever is done first. *)
Lemma percent_of_nonneg (v : float) :
  SF_nonneg (Prim2SF v) ->
  exists z : Z,
    (0 <= z <= 100)%Z
    /\ JS.Math_min 100 (JS.Math_round v) = JS.of_Z z
    /\ JS.Math_round (JS.Math_min 100 v) = JS.of_Z z.
Proof.
  intros Hnn. assert (Hvalid := Prim2SF_valid v).
  destruct (Prim2SF v) as [[ | ] | [ | ] | | [ | ] m e] eqn:Hv;
    simpl in Hnn; try contradiction.
  - (* +0 *)
    assert (H0 : v = 0) by (apply Prim2SF_inj; rewrite Hv; reflexivity).
    rewrite H0. exists 0%Z. repeat split; try lia; reflexivity.
  - (* +Infinity *)
    assert (H0 : v = infinity)
      by (apply Prim2SF_inj; rewrite Hv; reflexivity).
    rewrite H0. exists 100%Z. repeat split; try lia; reflexivity.
  - simpl in Hvalid.
    assert (Hm := bounded_mantissa_lt _ _ Hvalid).
    change (2 ^ 53)%Z with 9007199254740992%Z in Hm.
    destruct (Z_lt_le_dec (-46) e) as [Hbig | Hsmall].
    + (* at least 128 *)
      exists 100%Z. split; [lia | ]. split.
      * destruct (Z_le_gt_dec 0 e) as [Hint | Hfrac].
        -- rewrite (Math_round_integer _ _ _ _ Hv Hint).
           apply Math_min_100_over with (1 := Hv). now left.
        -- rewrite (Math_round_fraction _ _ _ Hv) by lia.
           apply Math_min_100_of_Z_large.
           assert (Hm52 := bounded_normal_mantissa_ge _ _ Hvalid ltac:(lia)).
           change (2 ^ 52)%Z with 4503599627370496%Z in Hm52.
           assert (Hd1 := pow2_ge 1 (- e) ltac:(lia)).
           assert (Hd2 := pow2_ge (- e) 45 ltac:(lia)).
           change (2 ^ 1)%Z with 2%Z in Hd1.
           change (2 ^ 45)%Z with 35184372088832%Z in Hd2.
           set (d := (2 ^ (- e))%Z) in *.
           destruct (round_quotient_bounds (Zpos m) d 128 9007199254740991)
             as [Hlo Hhi]; lia.
      * rewrite (Math_min_100_over _ _ _ Hv) by now left. reflexivity.
    + (* below 128 *)
      rewrite (Math_round_fraction _ _ _ Hv) by lia.
      assert (Hd := pow2_ge 46 (- e) ltac:(lia)).
      change (2 ^ 46)%Z with 70368744177664%Z in Hd.
      assert (Hz : (0 <= (2 * Zpos m + 2 ^ (- e)) / (2 * 2 ^ (- e)) <= 128)%Z).
      { set (d := (2 ^ (- e))%Z) in *.
        apply round_quotient_bounds; lia. }
      destruct (small_percent _ Hz) as [Hmin Hround].
      exists (Z.min 100 ((2 * Zpos m + 2 ^ (- e)) / (2 * 2 ^ (- e)))).
      split; [lia | ]. split; [exact Hmin | ].
      destruct (Z_lt_le_dec e (-46)) as [He | He].
      * (* below 64 *)
        rewrite (Math_min_100_below _ _ _ Hv) by now left.
        rewrite (Math_round_fraction _ _ _ Hv) by lia. f_equal.
        assert (Hd' := pow2_ge 47 (- e) ltac:(lia)).
        change (2 ^ 47)%Z with 140737488355328%Z in Hd'.
        set (d := (2 ^ (- e))%Z) in *.
        destruct (round_quotient_bounds (Zpos m) d 0 100); lia.
      * assert (He46 : e = (-46)%Z) by lia. subst e.
        change (2 ^ (- -46))%Z with 70368744177664%Z in *.
        destruct (Z.compare_spec (Zpos m) 7036874417766400) as [Heq | Hlt | Hgt].
        -- (* exactly 100 *)
           assert (H100 : v = 100).
           { apply Prim2SF_inj. rewrite Hv. injection Heq as ->. reflexivity. }
           rewrite H100. injection Heq as ->. reflexivity.
        -- rewrite (Math_min_100_below _ _ _ Hv)
             by (right; split; [reflexivity | exact Hlt]).
           rewrite (Math_round_fraction _ _ _ Hv) by lia. f_equal.
           change (2 ^ (- -46))%Z with 70368744177664%Z.
           destruct (round_quotient_bounds (Zpos m) 70368744177664 0 100); lia.
        -- rewrite (Math_min_100_over _ _ _ Hv)
             by (right; split; [reflexivity | exact Hgt]).
           change (JS.Math_round 100) with (JS.of_Z 100). f_equal.
           destruct (round_quotient_bounds (Zpos m) 70368744177664 100 128); lia.
Qed.

Lemma add_zero_l (t : float) :
  (0 + t = t) \/ (t = neg_zero /\ 0 + t = 0).
Proof.
  assert (H : Prim2SF (0 + t) = Prim2SF t
              \/ (Prim2SF t = S754_zero true /\ Prim2SF (0 + t) = S754_zero false)).
  { rewrite FloatAxioms.add_spec. change (Prim2SF 0) with (S754_zero false).
    destruct (Prim2SF t) as [[ | ] | s | | s m e]; simpl; auto. }
  destruct H as [H | [H1 H2]].
  - left. now apply Prim2SF_inj.
  - right. split; now apply Prim2SF_inj.
Qed.

Lemma sub_zero_r (x : float) : x - 0 = x.
Proof.
  apply Prim2SF_inj. rewrite FloatAxioms.sub_spec.
  change (Prim2SF 0) with (S754_zero false).
  destruct (Prim2SF x) as [[ | ] | s | | s m e]; reflexivity.
Qed.

Lemma mul_zero_pos (p : positive) :
  (Zpos p < 2 ^ 53)%Z ->
  0 * of_uint63 (Uint63.of_Z (Zpos p)) = 0.
Proof.
  intros Hp. apply Prim2SF_inj. rewrite FloatAxioms.mul_spec.
  rewrite (Prim2SF_of_pos _ Hp). reflexivity.
Qed.

End Arithmetic.

(* ================================================================== *)
(** ** Properties of the categorizer *)
(* ================================================================== *)

Section CategorizerFacts.

Lemma first_category_miss text cat keywords rest :
  any_keyword text keywords = false ->
  first_category text ((cat, keywords) :: rest) = first_category text rest.
Proof. intros H. simpl. now rewrite H. Qed.

Lemma first_category_hit text cat keywords rest :
  any_keyword text keywords = true ->
  first_category text ((cat, keywords) :: rest) = Some cat.
Proof. intros H. simpl. now rewrite H. Qed.

(** The category found by the scan is a key of the scanned entries. *)
Lemma first_category_key text entries cat :
  first_category text entries = Some cat -> In cat (map fst entries).
Proof.
  induction entries as [ | [c keywords] rest IH]; simpl.
  - discriminate.
  - destruct (any_keyword text keywords).
    + intros H. injection H as ->. now left.
    + intros H. right. now apply IH.
Qed.

Lemma KEYWORD_MAP_keys : incl (map fst KEYWORD_MAP) CATEGORIES.
Proof.
  intros c Hc. simpl in Hc. unfold CATEGORIES.
  repeat (destruct Hc as [<- | Hc]; [simpl; tauto | ]).
  contradiction.
Qed.

End CategorizerFacts.

(** C1 (amended): for every non-empty description and every amount
    strictly greater than 0, [categorizeExpense] returns ["Income"],
    whatever the description says; an empty or absent description
    returns ["Other"] whatever the amount. *)
Theorem categorize_positive_is_income :
  (forall (d : string) (amount : float),
      Str.nonempty d = true ->
      JS.gt amount 0 = true ->
      categorizeExpense (Some d) amount = "Income"%string)
  /\ (forall amount : float,
         categorizeExpense (Some EmptyString) amount = "Other"%string
         /\ categorizeExpense None amount = "Other"%string).
Proof.
  split.
  - intros d amount Hd Hpos. unfold categorizeExpense.
    destruct d as [ | c rest]; [discriminate | ].
    now rewrite Hpos.
  - intros amount. split; reflexivity.
Qed.

(** A description with the Dining keyword "coffee" is [Income] once the
    amount is positive, and [Dining] when it is not. *)
Lemma categorize_positive_is_income_witness :
  categorizeExpense (Some "Coffee shop"%string) 4.5 = "Income"%string
  /\ categorizeExpense (Some "Coffee shop"%string) (-4.5) = "Dining"%string
  /\ categorizeExpense None 4.5 = "Other"%string.
Proof.
  split; [ | split].
  - apply (proj1 categorize_positive_is_income); reflexivity.
  - reflexivity.
  - apply (proj2 categorize_positive_is_income).
Defined.

(** C1 as stated fails: with an empty description, or none, a positive
    amount is categorized ["Other"]. *)
Lemma categorize_positive_empty_description :
  ~ (forall (d : option string) (amount : float),
        JS.gt amount 0 = true ->
        categorizeExpense d amount = "Income"%string).
Proof.
  intros H. specialize (H (Some EmptyString) 5 eq_refl). discriminate H.
Qed.

(** C4 (amended): for every non-positive amount, a description that
    contains both a Dining keyword and a Shopping keyword, and no
    keyword of the categories tested before Dining (Groceries,
    Entertainment, Transport), is categorized ["Dining"]: the first
    category of the declaration order with a matching keyword wins. *)
Theorem categorize_dining_before_shopping (d : string) (amount : float) :
  PrimFloat.leb amount 0 = true ->
  has_keyword_of "Dining" d = true ->
  has_keyword_of "Shopping" d = true ->
  has_keyword_of "Groceries" d = false ->
  has_keyword_of "Entertainment" d = false ->
  has_keyword_of "Transport" d = false ->
  categorizeExpense (Some d) amount = "Dining"%string.
Proof.
  intros Hamount Hdining _ Hgroceries Hentertainment Htransport.
  unfold categorizeExpense.
  destruct d as [ | c rest].
  - vm_compute in Hdining. discriminate Hdining.
  - rewrite (nonpositive_not_gt _ Hamount).
    unfold has_keyword_of in *. simpl keywords_of in *.
    unfold KEYWORD_MAP.
    rewrite (first_category_miss _ _ _ _ Hgroceries).
    rewrite (first_category_miss _ _ _ _ Hentertainment).
    rewrite (first_category_miss _ _ _ _ Htransport).
    now rewrite (first_category_hit _ _ _ _ Hdining).
Qed.

Lemma categorize_dining_before_shopping_witness :
  categorizeExpense (Some "Cafe at the Mall"%string) (-20) = "Dining"%string.
Proof.
  apply categorize_dining_before_shopping; reflexivity.
Defined.

(** C4 as stated fails: a keyword of an earlier category wins over the
    Dining keyword. *)
Lemma categorize_dining_shopping_transport :
  ~ (forall (d : string) (amount : float),
        PrimFloat.leb amount 0 = true ->
        has_keyword_of "Dining" d = true ->
        has_keyword_of "Shopping" d = true ->
        categorizeExpense (Some d) amount = "Dining"%string).
Proof.
  intros H.
  specialize (H "Bus to the mall cafe"%string (-12.5) eq_refl eq_refl eq_refl).
  discriminate H.
Qed.

(** C10: [categorizeExpense] answers on every input, and its answer is
    one of the nine labels of [CATEGORIES], for every description
    (absent, empty or not) and every amount (positive, zero, negative or
    NaN). *)
Theorem categorize_in_CATEGORIES (d : option string) (amount : float) :
  In (categorizeExpense d amount) CATEGORIES.
Proof.
  assert (Hother : In "Other"%string CATEGORIES) by (simpl; tauto).
  assert (Hincome : In "Income"%string CATEGORIES) by (simpl; tauto).
  assert (Hshopping : In "Shopping"%string CATEGORIES) by (simpl; tauto).
  unfold categorizeExpense.
  destruct d as [[ | c rest] | ]; try assumption.
  destruct (JS.gt amount 0); try assumption.
  destruct (first_category _ KEYWORD_MAP) as [cat | ] eqn:Hscan.
  - apply KEYWORD_MAP_keys. now apply first_category_key in Hscan.
  - destruct (JS.gt (JS.Math_abs amount) 200); assumption.
Qed.

(** The specification's examples for the categorizer. *)
Example categorize_is_case_insensitive :
  categorizeExpense (Some "GROCERY run"%string) (-20) = "Groceries"%string
  /\ categorizeExpense (Some "grocery run"%string) (-20) = "Groceries"%string.
Proof. split; reflexivity. Qed.

Example categorize_fallback :
  categorizeExpense (Some "Rent"%string) (-950) = "Shopping"%string
  /\ categorizeExpense (Some "Rent"%string) (-95) = "Other"%string
  /\ categorizeExpense None 3000 = "Other"%string.
Proof. repeat split; reflexivity. Qed.

(* ================================================================== *)
(** ** Properties of the forecaster *)
(* ================================================================== *)

Section ForecasterFacts.

Lemma push_predictions_length slope intercept n remaining :
  forall i,
    List.length (push_predictions slope intercept n i remaining) = remaining.
Proof.
  induction remaining as [ | r IH]; intros i; simpl.
  - reflexivity.
  - now rewrite IH.
Qed.

Lemma push_predictions_clamped slope intercept n remaining :
  forall i,
    Forall (fun p => JS.ge (predicted p) 0 = true
                     \/ JS.isNaN (predicted p) = true)
           (push_predictions slope intercept n i remaining).
Proof.
  induction remaining as [ | r IH]; intros i; simpl.
  - constructor.
  - constructor; [ | apply IH]. simpl. apply Math_max_zero_ge.
Qed.

(** The prediction pushed at iteration [i0 + i]. *)
Lemma push_predictions_nth slope intercept n remaining :
  forall i0 i p,
    nth_error (push_predictions slope intercept n i0 remaining) i = Some p ->
    p = mkPrediction (n + (i0 + i))
          (JS.Math_max 0 (slope * JS.of_nat (n + (i0 + i)) + intercept)).
Proof.
  induction remaining as [ | r IH]; intros i0 i p; simpl.
  - destruct i; discriminate.
  - destruct i as [ | i]; simpl.
    + intros H. injection H as <-. now rewrite Nat.add_0_r.
    + intros H. apply IH in H. now rewrite Nat.add_succ_r.
Qed.

(** With slope [0] every prediction is the clamped intercept. *)
Lemma push_predictions_flat (c : float) (n remaining : nat) :
  forall i,
    (0 < n)%nat ->
    (Z.of_nat (n + i + remaining) < 2 ^ 53)%Z ->
    push_predictions 0 c n i remaining
    = map (fun j => mkPrediction (n + j) (JS.Math_max 0 (0 + c)))
          (seq i remaining).
Proof.
  induction remaining as [ | r IH]; intros i Hn Hbound.
  - reflexivity.
  - cbn [push_predictions seq map]. f_equal.
    + f_equal. f_equal. f_equal. unfold JS.of_nat.
      destruct (Z.of_nat (n + i)) as [ | p | p] eqn:Hp; try lia.
      cbn [JS.of_Z]. apply mul_zero_pos. lia.
    + apply IH; [assumption | lia].
Qed.

(** Adding to [+0] twice is adding once. *)
Lemma add_zero_l_twice (t : float) : 0 + (0 + t) = 0 + t.
Proof.
  destruct (add_zero_l t) as [H | [-> H]].
  - now rewrite H.
  - reflexivity.
Qed.

Lemma Math_max_zero_add (t : float) :
  JS.Math_max 0 (0 + t) = JS.Math_max 0 t.
Proof.
  destruct (add_zero_l t) as [H | [-> H]].
  - now rewrite H.
  - reflexivity.
Qed.

(** The line fitted to a single point. *)
Lemma regression_line_single (m : string) (t : float) :
  regression_line [mkMonthlyTotal m t] = (0, 0 + t).
Proof.
  unfold regression_line. cbn [List.length map total].
  change (index_list 1) with [0].
  change (sum_reduce [0] / JS.of_nat 1) with 0.
  change (sum_reduce [t] / JS.of_nat 1) with ((0 + t) / 1).
  rewrite div_one. cbn [regression_sums].
  change (0 + (0 - 0) * (0 - 0)) with 0.
  change (JS.strict_eq 0 0) with true. cbv iota.
  change (0 * 0) with 0.
  now rewrite sub_zero_r.
Qed.

End ForecasterFacts.

(** C5: for a single-element series [[{month, total: t}]] the fitted
    slope is [0], the intercept is [t] (the zero [+0] when [t] is [-0])
    and every prediction is [Math.max(0, t)]; the horizon is bounded by
    the length an array can have. *)
Theorem forecast_single_point (m : string) (t : float) (horizon : nat) :
  (Z.of_nat horizon < 2 ^ 32)%Z ->
  fst (regression_line [mkMonthlyTotal m t]) = 0
  /\ (snd (regression_line [mkMonthlyTotal m t]) = t
      \/ (t = neg_zero /\ snd (regression_line [mkMonthlyTotal m t]) = 0))
  /\ linearRegressionPredict [mkMonthlyTotal m t] horizon
     = map (fun i => mkPrediction (1 + i) (JS.Math_max 0 t)) (seq 0 horizon).
Proof.
  intros Hh. rewrite regression_line_single. cbn [fst snd].
  split; [reflexivity | ]. split; [apply add_zero_l | ].
  unfold linearRegressionPredict. rewrite regression_line_single.
  cbn [List.length]. rewrite push_predictions_flat; [ | lia | lia].
  rewrite add_zero_l_twice, Math_max_zero_add. reflexivity.
Qed.

Lemma forecast_single_point_witness :
  linearRegressionPredict [mkMonthlyTotal "2025-01" 100] 2
  = [mkPrediction 1 100; mkPrediction 2 100].
Proof.
  exact (proj2 (proj2 (forecast_single_point "2025-01" 100 2 eq_refl))).
Defined.

(** C8 (amended): for every series (the empty one included) and every
    horizon, [linearRegressionPredict] returns exactly [horizon]
    predictions.  For the empty series every predicted value is 0.
    Otherwise the predicted value at offset [i] is NaN exactly when the
    fitted value [slope * (n + i) + intercept] is NaN; when it is not,
    the predicted value is greater than or equal to 0: the fitted value
    itself when that is positive, and 0 when it is not. *)
Theorem forecast_length_and_clamp (series : list MonthlyTotal)
    (horizon : nat) :
  List.length (linearRegressionPredict series horizon) = horizon
  /\ Forall (fun p => JS.ge (predicted p) 0 = true
                      \/ JS.isNaN (predicted p) = true)
            (linearRegressionPredict series horizon)
  /\ (forall (i : nat) (p : Prediction),
         nth_error (linearRegressionPredict series horizon) i = Some p ->
         match series with
         | [] => predicted p = 0
         | _ =>
             (JS.isNaN (fitted_value series i) = true ->
              JS.isNaN (predicted p) = true)
             /\ (JS.isNaN (fitted_value series i) = false ->
                 JS.ge (predicted p) 0 = true
                 /\ predicted p
                    = if JS.gt (fitted_value series i) 0
                      then fitted_value series i else 0)
         end).
Proof.
  unfold linearRegressionPredict, fitted_value.
  destruct series as [ | mt rest].
  - split; [ | split].
    + now rewrite length_map, length_seq.
    + apply Forall_forall. intros p Hp. apply in_map_iff in Hp.
      destruct Hp as [i [<- _]]. left. reflexivity.
    + intros i p Hp. apply nth_error_In in Hp. apply in_map_iff in Hp.
      destruct Hp as [j [<- _]]. reflexivity.
  - destruct (regression_line (mt :: rest)) as [slope intercept].
    split; [ | split].
    + apply push_predictions_length.
    + apply push_predictions_clamped.
    + intros i p Hp. apply push_predictions_nth in Hp.
      change (0 + i)%nat with i in Hp. subst p. cbn [predicted].
      apply Math_max_zero_cases.
Qed.

(** A rising series is continued, not clamped. *)
Example forecast_upward_trend :
  linearRegressionPredict
    [mkMonthlyTotal "2025-01" 100; mkMonthlyTotal "2025-02" 120] 3
  = [mkPrediction 2 140; mkPrediction 3 160; mkPrediction 4 180].
Proof. vm_compute. reflexivity. Qed.

(** C8 as stated fails: two monthly totals of [1e308] sum to
    [Infinity], the regression yields NaN, and [Math.max(0, NaN)] is
    NaN, which is not [>= 0]. *)
Lemma forecast_overflow_is_NaN :
  ~ (forall (series : list MonthlyTotal) (horizon : nat),
        (0 < horizon)%nat ->
        List.length (linearRegressionPredict series horizon) = horizon
        /\ Forall (fun p => JS.ge (predicted p) 0 = true)
                  (linearRegressionPredict series horizon)).
Proof.
  intros H.
  specialize (H [mkMonthlyTotal "2025-01" 1e308; mkMonthlyTotal "2025-02" 1e308]
                1%nat Nat.lt_0_1).
  destruct H as [_ H]. inversion H as [ | p l Hp _ Heq]. 
  vm_compute in Hp. discriminate Hp.
Qed.

(** The specification's examples for the forecaster. *)
Example forecast_empty_series :
  linearRegressionPredict [] 3
  = [mkPrediction 0 0; mkPrediction 1 0; mkPrediction 2 0].
Proof. reflexivity. Qed.

Example forecast_downward_trend :
  linearRegressionPredict
    [mkMonthlyTotal "2025-01" 100; mkMonthlyTotal "2025-02" 60;
     mkMonthlyTotal "2025-03" 20] 3
  = [mkPrediction 3 0; mkPrediction 4 0; mkPrediction 5 0].
Proof. vm_compute. reflexivity. Qed.

(* ================================================================== *)
(** ** Properties of the budget alert *)
(* ================================================================== *)

(** C6: the alert is raised exactly when the predicted value is
    strictly greater than [budget * (alertThresholdPercent / 100)];
    a predicted value equal to the threshold does not raise it, so
    1000 against a limit of 1000 at 100 percent does not and 1000.01
    does. *)
Theorem willBreachBudget_strict :
  (forall p budget percent : float,
      willBreachBudget p budget percent = true
      <-> JS.gt p (budget * (percent / 100)) = true)
  /\ (forall p budget percent : float,
         JS.strict_eq p (budget * (percent / 100)) = true ->
         willBreachBudget p budget percent = false)
  /\ willBreachBudget 1000 1000 100 = false
  /\ willBreachBudget 1000.01 1000 100 = true.
Proof.
  split; [ | split; [ | split]].
  - intros p budget percent. unfold willBreachBudget. tauto.
  - intros p budget percent Heq. unfold willBreachBudget.
    now apply strict_eq_not_gt.
  - reflexivity.
  - reflexivity.
Qed.

(* ================================================================== *)
(** ** Properties of the goal progress *)
(* ================================================================== *)

Section GoalFacts.

(** The reduction over the filtered array visits the positive amounts
    in order. *)
Lemma positive_sum_from (expenses : list Transaction) :
  forall acc,
    fold_left (fun a b => a + amount b)
              (filter (fun e => JS.gt (amount e) 0) expenses) acc
    = sum_positive_from acc expenses.
Proof.
  induction expenses as [ | e rest IH]; intros acc; simpl.
  - reflexivity.
  - destruct (JS.gt (amount e) 0); simpl; apply IH.
Qed.

(** The running sum of positive amounts never turns negative or NaN. *)
Lemma sum_positive_from_nonneg (expenses : list Transaction) :
  forall acc,
    SF_nonneg (Prim2SF acc) ->
    SF_nonneg (Prim2SF (sum_positive_from acc expenses)).
Proof.
  induction expenses as [ | e rest IH]; intros acc Hacc; simpl.
  - exact Hacc.
  - apply IH. destruct (JS.gt (amount e) 0) eqn:Hpos; [ | exact Hacc].
    apply add_nonneg; [exact Hacc | now apply positive_SF_nonneg].
Qed.

(** The ratio fed to [Math.round] is a non-negative number. *)
Lemma ratio_nonneg (sum goal_target : float) :
  SF_nonneg (Prim2SF sum) ->
  JS.gt goal_target 0 = true -> JS.isFinite goal_target = true ->
  SF_nonneg (Prim2SF (sum / goal_target * 100)).
Proof.
  intros Hsum Hpos Hfin.
  destruct (positive_finite_SF _ Hpos Hfin) as [m [e Ht]].
  rewrite FloatAxioms.mul_spec, FloatAxioms.div_spec, Ht, Prim2SF_100.
  apply SFmul_nonneg, SFdiv_nonneg, Hsum.
Qed.

End GoalFacts.

(** C7 (amended): for every transaction list and every goal whose
    target is finite and strictly positive, [progressForGoal] returns
    [saved] equal to the sum of the amounts of all transactions with
    [amount > 0], rounded to two decimals by [Number(toFixed(2))], and
    [pct] equal to [round(min(100, sum / target * 100))] computed from
    the unrounded sum, an integer between 0 and 100. *)
Theorem progressForGoal_rounded (expenses : list Transaction) (goal : Goal) :
  JS.gt (target goal) 0 = true ->
  JS.isFinite (target goal) = true ->
  saved (progressForGoal expenses goal)
  = JS.Number_toFixed2 (sum_positive_amounts expenses)
  /\ pct (progressForGoal expenses goal)
     = JS.Math_round
         (JS.Math_min 100 (sum_positive_amounts expenses / target goal * 100))
  /\ exists z : Z,
       (0 <= z <= 100)%Z /\ pct (progressForGoal expenses goal) = JS.of_Z z.
Proof.
  intros Hpos Hfin. unfold progressForGoal, positive_sum. cbn [saved pct].
  rewrite positive_sum_from. fold (sum_positive_amounts expenses).
  assert (Hsum : SF_nonneg (Prim2SF (sum_positive_amounts expenses)))
    by (apply sum_positive_from_nonneg; exact I).
  destruct (percent_of_nonneg _ (ratio_nonneg _ _ Hsum Hpos Hfin))
    as [z [Hz [Hmin Hround]]].
  split; [reflexivity | ]. split.
  - now rewrite Hmin, Hround.
  - exists z. now split.
Qed.

Lemma progressForGoal_rounded_witness :
  saved (progressForGoal
           [ mkTransaction (IdString "1") "2025-01-03" "Salary deposit" 100 "Income";
             mkTransaction (IdString "2") "2025-01-05" "Coffee shop" (-4.5) "Dining";
             mkTransaction (IdString "3") "2025-02-03" "Salary deposit" 150 "Income" ]
           (mkGoal "g1" "Holiday" 500 "2025-01-01T00:00:00.000Z")) = 250
  /\ pct (progressForGoal
           [ mkTransaction (IdString "1") "2025-01-03" "Salary deposit" 100 "Income";
             mkTransaction (IdString "2") "2025-01-05" "Coffee shop" (-4.5) "Dining";
             mkTransaction (IdString "3") "2025-02-03" "Salary deposit" 150 "Income" ]
           (mkGoal "g1" "Holiday" 500 "2025-01-01T00:00:00.000Z")) = 50.
Proof.
  destruct (progressForGoal_rounded
              [ mkTransaction (IdString "1") "2025-01-03" "Salary deposit" 100 "Income";
                mkTransaction (IdString "2") "2025-01-05" "Coffee shop" (-4.5) "Dining";
                mkTransaction (IdString "3") "2025-02-03" "Salary deposit" 150 "Income" ]
              (mkGoal "g1" "Holiday" 500 "2025-01-01T00:00:00.000Z")
              eq_refl eq_refl) as [Hsaved [Hpct _]].
  split; [exact Hsaved | exact Hpct].
Defined.

(** C7 as stated fails: the saved amount is rounded to two decimals, so
    a single income of 0.004 is reported as 0; and with an infinite
    target and an infinite sum the percentage is NaN. *)
Lemma progressForGoal_saved_is_rounded :
  ~ (forall (expenses : list Transaction) (goal : Goal),
        JS.gt (target goal) 0 = true ->
        saved (progressForGoal expenses goal)
        = sum_positive_amounts expenses)
  /\ ~ (forall (expenses : list Transaction) (goal : Goal),
           JS.gt (target goal) 0 = true ->
           exists z : Z,
             (0 <= z <= 100)%Z
             /\ pct (progressForGoal expenses goal) = JS.of_Z z).
Proof.
  split.
  - intros H.
    specialize (H [mkTransaction (IdString "1") "2025-01-03" "Interest" 0.004 "Income"]
                  (mkGoal "g1" "Holiday" 500 "2025-01-01T00:00:00.000Z") eq_refl).
    vm_compute in H.
    apply (f_equal (fun x => PrimFloat.eqb x 0)) in H. vm_compute in H.
    discriminate H.
  - intros H.
    specialize (H [mkTransaction (IdString "1") "2025-01-03" "Windfall" infinity "Income"]
                  (mkGoal "g1" "Holiday" infinity "2025-01-01T00:00:00.000Z") eq_refl).
    destruct H as [z [Hz H]].
    assert (Hnan : is_nan (JS.of_Z z) = true) by (rewrite <- H; reflexivity).
    assert (Hall : forallb (fun k => negb (is_nan (JS.of_Z k)))
                     (map Z.of_nat (seq 0 101)) = true) by (vm_compute; reflexivity).
    assert (Hin : In z (map Z.of_nat (seq 0 101))).
    { apply in_map_iff. exists (Z.to_nat z). split; [lia | ].
      apply in_seq. lia. }
    apply (proj1 (forallb_forall _ _) Hall) in Hin.
    rewrite Hnan in Hin. discriminate Hin.
Qed.

(** C9: the saved amount reported by [progressForGoal] does not depend
    on the goal: two goals over the same transactions report the same
    saved amount, the rounded sum of the positive amounts of all the
    transactions. *)
Theorem progressForGoal_saved_independent (expenses : list Transaction)
    (g1 g2 : Goal) :
  saved (progressForGoal expenses g1) = saved (progressForGoal expenses g2)
  /\ saved (progressForGoal expenses g1)
     = JS.Number_toFixed2 (sum_positive_amounts expenses).
Proof.
  unfold progressForGoal, positive_sum. cbn [saved].
  split; [reflexivity | ].
  rewrite positive_sum_from. reflexivity.
Qed.

(* ================================================================== *)
(** ** Properties of the CSV import *)
(* ================================================================== *)

Section ImportFacts.

Variable Number : string -> float.
Variable fresh_id : nat -> float.

(** The loop appends, to what is parsed already, the transactions of
    the rows with three fields. *)
Lemma parse_rows_kept (rows : list string) :
  forall parsed,
    parse_rows Number fresh_id rows parsed
    = parsed ++ transactions_from Number fresh_id (List.length parsed)
                  (filter has_three_fields rows).
Proof.
  induction rows as [ | r rest IH]; intros parsed; simpl.
  - now rewrite app_nil_r.
  - unfold has_three_fields at 1.
    destruct (Nat.ltb_spec (List.length (Str.split_on comma r)) 3) as [Hlt | Hge].
    + replace (3 <=? List.length (Str.split_on comma r))%nat with false
        by (symmetry; apply Nat.leb_gt; exact Hlt).
      apply IH.
    + replace (3 <=? List.length (Str.split_on comma r))%nat with true
        by (symmetry; apply Nat.leb_le; exact Hge).
      rewrite IH. rewrite <- app_assoc. simpl.
      rewrite length_app. simpl. now rewrite Nat.add_1_r.
Qed.

(** Every row is either kept or skipped. *)
Lemma kept_or_skipped (text : string) :
  (List.length (kept_rows text) + skippedLineCount text
   = List.length (csv_rows text))%nat.
Proof.
  unfold kept_rows, skippedLineCount.
  induction (csv_rows text) as [ | r rest IH]; simpl.
  - reflexivity.
  - destruct (has_three_fields r); simpl; lia.
Qed.

End ImportFacts.

(** C2 (amended): [importCSV] skips every non-empty line with fewer than
    3 comma-separated fields without failing and puts one transaction
    per remaining line, in order, in front of the existing ones; it
    returns no count of the skipped lines.  On the example text exactly
    1 transaction is parsed and 1 line is skipped. *)
Theorem importCSV_skips_short_rows (Number : string -> float)
    (fresh_id : nat -> float) (text : string) (expenses : list Transaction) :
  importCSV Number fresh_id text expenses
  = transactions_from Number fresh_id 0 (kept_rows text) ++ expenses
  /\ (List.length (kept_rows text) + skippedLineCount text
      = List.length (csv_rows text))%nat
  /\ List.length (importCSV Number fresh_id example_csv []) = 1%nat
  /\ skippedLineCount example_csv = 1%nat.
Proof.
  split; [ | split; [ | split]].
  - unfold importCSV. now rewrite parse_rows_kept.
  - apply kept_or_skipped.
  - reflexivity.
  - reflexivity.
Qed.

(** On the example, when [Number] reads ["-4.50"] as [-4.5]. *)
Example importCSV_example :
  importCSV (fun _ => (-4.5)%float) (fun _ => 1736035200000.25%float)
            example_csv []
  = [mkTransaction (IdNumber 1736035200000.25) "2025-01-05" "Coffee shop"
                   (-4.5) "Dining"].
Proof. vm_compute. reflexivity. Qed.

(** C2 as stated fails: what [importCSV] produces does not tell how many
    lines were skipped; the example text and its first line alone give
    the same result. *)
Lemma importCSV_reports_no_count :
  ~ (exists count : list Transaction -> nat,
        forall (Number : string -> float) (fresh_id : nat -> float)
               (text : string) (expenses : list Transaction),
          count (importCSV Number fresh_id text expenses)
          = skippedLineCount text).
Proof.
  intros [count H].
  assert (H1 := H (fun _ => (-4.5)%float) (fun _ => 0%float) example_csv []).
  assert (H2 := H (fun _ => (-4.5)%float) (fun _ => 0%float)
                  "2025-01-05,Coffee shop,-4.50"%string []).
  change (skippedLineCount example_csv) with 1%nat in H1.
  change (skippedLineCount "2025-01-05,Coffee shop,-4.50") with 0%nat in H2.
  change (importCSV (fun _ => (-4.5)%float) (fun _ => 0%float) example_csv [])
    with (importCSV (fun _ => (-4.5)%float) (fun _ => 0%float)
            "2025-01-05,Coffee shop,-4.50"%string []) in H1.
  rewrite H2 in H1. discriminate H1.
Qed.

(* ================================================================== *)
(** ** Properties of the monthly aggregation *)
(* ================================================================== *)

Section AggregationFacts.

Variable fullYear : string -> string.
Variable monthNumber : string -> string.
Variable localeCompare : string -> string -> Z.

Let key (e : Transaction) : string := monthKey fullYear monthNumber (date e).
Let sum_from := month_sum_from fullYear monthNumber.
Let fresh_keys := new_keys fullYear monthNumber.

(** The entries of the object after the rest of the loop, from the
    entries before it. *)
Let settle (rest : list Transaction) (entry : string * float) : string * float :=
  (fst entry, sum_from (fst entry) (snd entry) rest).

Lemma existsb_eqb_In (k : string) (seen : list string) :
  existsb (String.eqb k) seen = true <-> In k seen.
Proof.
  rewrite existsb_exists. split.
  - intros [x [Hin Heq]]. apply String.eqb_eq in Heq. now subst x.
  - intros Hin. exists k. split; [assumption | apply String.eqb_refl].
Qed.

(** A transaction of another month leaves the sum of month [k] alone. *)
Lemma sum_from_other (k : string) (acc : float) (e : Transaction)
    (rest : list Transaction) :
  key e <> k -> sum_from k acc (e :: rest) = sum_from k acc rest.
Proof.
  intros Hne. unfold sum_from. simpl. fold (key e).
  apply String.eqb_neq in Hne. now rewrite Hne.
Qed.

Lemma sum_from_same (acc : float) (e : Transaction) (rest : list Transaction) :
  sum_from (key e) acc (e :: rest)
  = sum_from (key e) (JS.or_zero acc + JS.or_zero (amount e)) rest.
Proof. unfold sum_from. simpl. fold (key e). now rewrite String.eqb_refl. Qed.

(** Reading a key that is not there. *)
Lemma map_get_absent (mp : list (string * float)) (k : string) :
  ~ In k (map fst mp) -> map_get mp k = None.
Proof.
  induction mp as [ | [k1 x] rest IH]; simpl; intros Hnin.
  - reflexivity.
  - destruct (String.eqb_spec k1 k) as [-> | Hne].
    + exfalso. apply Hnin. now left.
    + apply IH. intros Hin. apply Hnin. now right.
Qed.

(** Writing a key that is not there adds it at the end. *)
Lemma map_set_absent (mp : list (string * float)) (k : string) (v : float) :
  ~ In k (map fst mp) -> map_set mp k v = mp ++ [(k, v)].
Proof.
  induction mp as [ | [k1 x] rest IH]; simpl; intros Hnin.
  - reflexivity.
  - destruct (String.eqb_spec k1 k) as [-> | Hne].
    + exfalso. apply Hnin. now left.
    + f_equal. apply IH. intros Hin. apply Hnin. now right.
Qed.

(** Entries of other months are settled alike with or without [e]. *)
Lemma settle_others (e : Transaction) (rest : list Transaction)
    (mp : list (string * float)) :
  ~ In (key e) (map fst mp) ->
  map (settle (e :: rest)) mp = map (settle rest) mp.
Proof.
  induction mp as [ | [k1 x] tl IH]; simpl; intros Hnin.
  - reflexivity.
  - f_equal.
    + unfold settle. simpl fst. simpl snd. f_equal.
      apply sum_from_other. intros Heq. apply Hnin. now left.
    + apply IH. intros Hin. apply Hnin. now right.
Qed.

(** Writing the month of [e] when it is there already. *)
Lemma map_set_present (e : Transaction) (rest : list Transaction)
    (mp : list (string * float)) :
  NoDup (map fst mp) -> In (key e) (map fst mp) ->
  map (settle rest)
      (map_set mp (key e)
         (map_get_or_zero mp (key e) + JS.or_zero (amount e)))
  = map (settle (e :: rest)) mp
  /\ map fst (map_set mp (key e)
                (map_get_or_zero mp (key e) + JS.or_zero (amount e)))
     = map fst mp.
Proof.
  induction mp as [ | [k1 x] tl IH]; simpl; intros Hnd Hin.
  - contradiction.
  - inversion Hnd as [ | ? ? Hk1 Htl]; subst.
    unfold map_get_or_zero. simpl map_get.
    destruct (String.eqb_spec k1 (key e)) as [Heq | Hne].
    + subst k1. simpl. split; [ | reflexivity]. f_equal.
      * unfold settle. simpl fst. simpl snd. f_equal.
        symmetry. apply sum_from_same.
      * symmetry. now apply settle_others.
    + destruct Hin as [Hin | Hin]; [contradiction | ].
      destruct (IH Htl Hin) as [IH1 IH2].
      unfold map_get_or_zero in IH1, IH2.
      simpl. rewrite IH1, IH2. split; [ | reflexivity]. f_equal.
      unfold settle. simpl fst. simpl snd. f_equal.
      symmetry. now apply sum_from_other.
Qed.

(** A fresh key is not among the keys seen. *)
Lemma fresh_keys_not_seen (expenses : list Transaction) :
  forall seen k, In k (fresh_keys seen expenses) -> ~ In k seen.
Proof.
  induction expenses as [ | e rest IH]; intros seen k; simpl.
  - contradiction.
  - unfold fresh_keys. simpl. fold (key e). fold fresh_keys.
    destruct (existsb (String.eqb (key e)) seen) eqn:Hseen.
    + apply IH.
    + intros [<- | Hin].
      * intros Hin. apply existsb_eqb_In in Hin. congruence.
      * apply IH in Hin. intros Hs. apply Hin. apply in_or_app. now left.
Qed.

(** What the loop leaves in the object: the entries it had, settled,
    then one entry per fresh month. *)
Lemma fill_map_settled (expenses : list Transaction) :
  forall mp,
    NoDup (map fst mp) ->
    fill_map fullYear monthNumber expenses mp
    = map (settle expenses) mp
      ++ map (fun k => (k, sum_from k 0 expenses))
             (fresh_keys (map fst mp) expenses).
Proof.
  induction expenses as [ | e rest IH]; intros mp Hnd.
  - simpl. rewrite app_nil_r. unfold settle, sum_from. simpl.
    induction mp as [ | [k x] tl IHtl]; simpl; [reflexivity | ].
    inversion Hnd; subst. now rewrite <- IHtl.
  - simpl fill_map. fold (key e).
    unfold fresh_keys. simpl new_keys. fold (key e). fold fresh_keys.
    destruct (existsb (String.eqb (key e)) (map fst mp)) eqn:Hseen.
    + (* the month has an entry *)
      apply existsb_eqb_In in Hseen.
      destruct (map_set_present e rest mp Hnd Hseen) as [Hset Hkeys].
      rewrite IH by (rewrite Hkeys; exact Hnd).
      rewrite Hset, Hkeys. f_equal.
      apply map_ext_in. intros k Hk. f_equal. symmetry.
      apply sum_from_other. intros Heq.
      apply fresh_keys_not_seen in Hk. apply Hk. now rewrite <- Heq.
    + (* a new month *)
      assert (Hnin : ~ In (key e) (map fst mp)).
      { intros Hin. apply existsb_eqb_In in Hin. congruence. }
      unfold map_get_or_zero. rewrite (map_get_absent _ _ Hnin).
      rewrite (map_set_absent _ _ _ Hnin).
      assert (Hnd' : NoDup (map fst (mp ++ [(key e, 0 + JS.or_zero (amount e))]))).
      { rewrite map_app. simpl. apply NoDup_app; [exact Hnd | | ].
        - constructor; [intros [] | constructor].
        - intros k Hk [<- | []]. contradiction. }
      rewrite IH by exact Hnd'.
      rewrite !map_app. cbn [map]. rewrite <- app_assoc. cbn [app].
      rewrite (settle_others e rest mp Hnin). f_equal. f_equal.
      * unfold settle. cbn [fst snd]. f_equal.
        rewrite sum_from_same. reflexivity.
      * apply map_ext_in. intros k Hk. f_equal. symmetry.
        apply sum_from_other. intros Heq.
        apply fresh_keys_not_seen in Hk. apply Hk.
        apply in_or_app. right. left. exact Heq.
Qed.

(** The fresh keys are distinct. *)
Lemma fresh_keys_NoDup (expenses : list Transaction) :
  forall seen, NoDup (fresh_keys seen expenses).
Proof.
  induction expenses as [ | e rest IH]; intros seen.
  - constructor.
  - unfold fresh_keys. simpl new_keys. fold (key e). fold fresh_keys.
    destruct (existsb (String.eqb (key e)) seen).
    + apply IH.
    + constructor; [ | apply IH].
      intros Hin. apply fresh_keys_not_seen in Hin. apply Hin.
      apply in_or_app. right. now left.
Qed.

(** The fresh keys are the months of the transactions, those seen
    apart. *)
Lemma fresh_keys_In (expenses : list Transaction) :
  forall seen k,
    In k (fresh_keys seen expenses)
    <-> ~ In k seen /\ exists e, In e expenses /\ key e = k.
Proof.
  induction expenses as [ | e rest IH]; intros seen k.
  - simpl. split; [contradiction | ]. intros [_ [e [[] _]]].
  - unfold fresh_keys. simpl new_keys. fold (key e). fold fresh_keys.
    destruct (existsb (String.eqb (key e)) seen) eqn:Hseen.
    + rewrite IH. split.
      * intros [Hnin [e' [Hin Hk]]]. split; [exact Hnin | ].
        exists e'. split; [now right | exact Hk].
      * intros [Hnin [e' [[<- | Hin] Hk]]].
        -- apply existsb_eqb_In in Hseen. congruence.
        -- split; [exact Hnin | ]. now exists e'.
    + assert (Hnew : ~ In (key e) seen).
      { intros Hin. apply existsb_eqb_In in Hin. congruence. }
      simpl. rewrite IH. split.
      * intros [<- | [Hnin [e' [Hin Hk]]]].
        -- split; [exact Hnew | ]. exists e. split; [now left | reflexivity].
        -- split.
           ++ intros Hs. apply Hnin. apply in_or_app. now left.
           ++ exists e'. split; [now right | exact Hk].
      * intros [Hnin [e' [[<- | Hin] Hk]]].
        -- now left.
        -- destruct (string_dec (key e) k) as [Heq | Hne]; [now left | ].
           right. split.
           ++ intros Hs. apply in_app_or in Hs. destruct Hs as [Hs | [Hs | []]].
              ** contradiction.
              ** contradiction.
           ++ now exists e'.
Qed.

(** Sorting permutes. *)
Lemma sort_insert_perm (x : MonthlyTotal) (sorted : list MonthlyTotal) :
  Permutation (sort_insert localeCompare x sorted) (x :: sorted).
Proof.
  induction sorted as [ | y rest IH]; simpl.
  - apply Permutation_refl.
  - destruct (0 <? localeCompare (month x) (month y))%Z.
    + apply Permutation_trans with (y :: x :: rest).
      * now apply perm_skip.
      * apply perm_swap.
    + apply Permutation_refl.
Qed.

Lemma sort_by_month_perm (arr : list MonthlyTotal) :
  Permutation (sort_by_month localeCompare arr) arr.
Proof.
  induction arr as [ | x rest IH]; simpl.
  - apply perm_nil.
  - apply Permutation_trans with (x :: sort_by_month localeCompare rest).
    + apply sort_insert_perm.
    + now apply perm_skip.
Qed.

End AggregationFacts.

(** C3 (amended): for every sequence of transactions, the entries
    returned by [monthlyTotals] are, up to their order, one per distinct
    month key, and the total of a month is the running sum of the
    amounts of the transactions of that month, taken in order with a
    falsy amount or running sum (NaN, [0], [-0]) counting as 0, rounded
    to two decimals by [Number(toFixed(2))].  The sum of the totals is
    therefore the sum, in the order of the output, of these rounded
    sums of the months. *)
Theorem monthlyTotals_rounded_month_sums
    (fullYear monthNumber : string -> string)
    (localeCompare : string -> string -> Z) (expenses : list Transaction) :
  Permutation
    (monthlyTotals fullYear monthNumber localeCompare expenses)
    (map (fun k => mkMonthlyTotal k
                     (JS.Number_toFixed2
                        (month_sum fullYear monthNumber k expenses)))
         (month_keys fullYear monthNumber expenses))
  /\ NoDup (month_keys fullYear monthNumber expenses)
  /\ (forall k : string,
         In k (month_keys fullYear monthNumber expenses)
         <-> exists e, In e expenses
                       /\ monthKey fullYear monthNumber (date e) = k)
  /\ sum_reduce
       (map total (monthlyTotals fullYear monthNumber localeCompare expenses))
     = sum_reduce
         (map (fun entry =>
                 JS.Number_toFixed2
                   (month_sum fullYear monthNumber (month entry) expenses))
              (monthlyTotals fullYear monthNumber localeCompare expenses)).
Proof.
  assert (Hperm :
            Permutation
              (monthlyTotals fullYear monthNumber localeCompare expenses)
              (map (fun k => mkMonthlyTotal k
                               (JS.Number_toFixed2
                                  (month_sum fullYear monthNumber k expenses)))
                   (month_keys fullYear monthNumber expenses))).
  { unfold monthlyTotals.
    apply Permutation_trans with (1 := sort_by_month_perm _ _).
    rewrite fill_map_settled by constructor.
    simpl. rewrite map_map. apply Permutation_refl. }
  split; [exact Hperm | split; [ | split]].
  - apply fresh_keys_NoDup.
  - intros k. unfold month_keys. rewrite fresh_keys_In. split.
    + intros [_ H]. exact H.
    + intros H. split; [intros [] | exact H].
  - f_equal. apply map_ext_in. intros entry Hentry.
    apply (Permutation_in _ Hperm) in Hentry. apply in_map_iff in Hentry.
    destruct Hentry as [k [<- _]]. reflexivity.
Qed.

(** The specification's examples for the aggregation. *)
Example monthlyTotals_empty :
  monthlyTotals utc_fullYear utc_monthNumber code_unit_compare [] = [].
Proof. reflexivity. Qed.

Example monthlyTotals_two_months :
  monthlyTotals utc_fullYear utc_monthNumber code_unit_compare
    [ mkTransaction (IdString "1") "2025-02-03" "Grocery store" (-40.25) "Groceries";
      mkTransaction (IdString "2") "2025-01-15" "Salary deposit" 3000 "Income";
      mkTransaction (IdString "3") "2025-02-20" "Coffee shop" (-4.5) "Dining" ]
  = [mkMonthlyTotal "2025-01" 3000; mkMonthlyTotal "2025-02" (-44.75)].
Proof. vm_compute. reflexivity. Qed.

(** C3 as stated fails: an amount of 0.004 gives a monthly total of 0,
    so the totals do not add up to the amounts. *)
Lemma monthlyTotals_rounding_loses_amounts :
  ~ (forall (fullYear monthNumber : string -> string)
            (localeCompare : string -> string -> Z)
            (expenses : list Transaction),
        sum_reduce
          (map total (monthlyTotals fullYear monthNumber localeCompare expenses))
        = sum_reduce (map amount expenses)).
Proof.
  intros H.
  specialize (H utc_fullYear utc_monthNumber code_unit_compare
                [mkTransaction (IdString "1") "2025-01-03" "Interest" 0.004 "Income"]).
  vm_compute in H.
  apply (f_equal (fun x => PrimFloat.eqb x 0)) in H. vm_compute in H.
  discriminate H.
Qed.

(* ================================================================== *)
(** ** Further properties of the categorizer *)
(* ================================================================== *)

Section CategorizerMore.

Lemma toLowerCase_empty (d : string) :
  Str.toLowerCase d = EmptyString -> d = EmptyString.
Proof. destruct d; [reflexivity | discriminate]. Qed.

(** A prefix of a prefix. *)
Lemma prefix_trans (k2 : string) :
  forall k1 t,
    String.prefix k2 k1 = true -> String.prefix k1 t = true ->
    String.prefix k2 t = true.
Proof.
  induction k2 as [ | a k2' IH]; intros k1 t H21 H1t.
  - destruct t; reflexivity.
  - destruct k1 as [ | b k1']; [discriminate | ].
    destruct t as [ | c t']; [discriminate | ].
    simpl in *.
    destruct (ascii_dec a b) as [-> | ]; [ | discriminate].
    destruct (ascii_dec b c) as [-> | ]; [ | discriminate].
    now apply IH with k1'.
Qed.

(** A text that holds a keyword holds every beginning of it. *)
Lemma includes_prefix (k2 k1 : string) :
  String.prefix k2 k1 = true ->
  forall text, Str.includes text k1 = true -> Str.includes text k2 = true.
Proof.
  intros Hp text. induction text as [ | c rest IH]; cbn [Str.includes].
  - destruct (String.prefix k1 EmptyString) eqn:H1; [ | discriminate].
    intros _. now rewrite (prefix_trans _ _ _ Hp H1).
  - destruct (String.prefix k1 (String c rest)) eqn:H1.
    + intros _. now rewrite (prefix_trans _ _ _ Hp H1).
    + intros H. rewrite (IH H). now destruct (String.prefix k2 (String c rest)).
Qed.

(** What the scan answers has a keyword in the text. *)
Lemma first_category_has_keyword text entries cat :
  NoDup (map fst entries) ->
  first_category text entries = Some cat ->
  any_keyword text (keywords_of cat entries) = true.
Proof.
  induction entries as [ | [c keywords] rest IH]; simpl; intros Hnd.
  - discriminate.
  - inversion Hnd as [ | ? ? Hc Hrest]; subst.
    destruct (any_keyword text keywords) eqn:Hhit.
    + intros H. injection H as ->. now rewrite String.eqb_refl.
    + intros H. destruct (String.eqb_spec c cat) as [-> | Hne].
      * exfalso. apply Hc. now apply first_category_key in H.
      * now apply IH.
Qed.

(** A category with a keyword in the text stops the scan, at itself or
    before. *)
Lemma first_category_within text before cat keywords after :
  any_keyword text keywords = true ->
  exists c,
    first_category text (before ++ (cat, keywords) :: after) = Some c
    /\ In c (map fst before ++ [cat]).
Proof.
  intros Hhit. induction before as [ | [c0 k0] rest IH]; simpl.
  - rewrite Hhit. exists cat. split; [reflexivity | now left].
  - destruct (any_keyword text k0).
    + exists c0. split; [reflexivity | now left].
    + destruct IH as [c [Hc Hin]]. exists c. split; [exact Hc | now right].
Qed.

Lemma KEYWORD_MAP_NoDup : NoDup (map fst KEYWORD_MAP).
Proof.
  simpl. repeat (constructor; [simpl; intuition discriminate | ]).
  constructor.
Qed.

End CategorizerMore.

(** X1: the categorizer is case-insensitive: two descriptions that are
    equal once lower-cased get the same category, for every amount. *)
Theorem categorize_case_insensitive (d1 d2 : string) (amount : float) :
  Str.toLowerCase d1 = Str.toLowerCase d2 ->
  categorizeExpense (Some d1) amount = categorizeExpense (Some d2) amount.
Proof.
  intros H. unfold categorizeExpense.
  destruct d1 as [ | c1 r1], d2 as [ | c2 r2]; try discriminate H;
    [reflexivity | ].
  now rewrite H.
Qed.

Lemma categorize_case_insensitive_witness :
  categorizeExpense (Some "UBER Trip"%string) (-18.4)
  = categorizeExpense (Some "uber trip"%string) (-18.4).
Proof. apply categorize_case_insensitive. reflexivity. Defined.

(** X2: a category other than [Income], [Other] and [Shopping] is only
    answered when one of its own keywords occurs in the description. *)
Theorem categorize_keyword_sound (d : string) (amount : float) :
  categorizeExpense (Some d) amount = "Income"%string
  \/ categorizeExpense (Some d) amount = "Other"%string
  \/ categorizeExpense (Some d) amount = "Shopping"%string
  \/ has_keyword_of (categorizeExpense (Some d) amount) d = true.
Proof.
  unfold categorizeExpense. destruct d as [ | c rest]; [tauto | ].
  destruct (JS.gt amount 0); [tauto | ].
  destruct (first_category _ KEYWORD_MAP) as [cat | ] eqn:Hscan.
  - right. right. right. unfold has_keyword_of.
    now apply first_category_has_keyword; [apply KEYWORD_MAP_NoDup | ].
  - destruct (JS.gt (JS.Math_abs amount) 200); tauto.
Qed.

(** X3: the keyword ["gas bill"] of [Utilities] never decides: a
    description that holds it holds ["gas"], which [Transport] tests
    first, so the answer is [Income] or one of the three categories
    tested up to [Transport]. *)
Theorem categorize_gas_bill_shadowed (d : string) (amount : float) :
  Str.includes (Str.toLowerCase d) "gas bill" = true ->
  In (categorizeExpense (Some d) amount)
     ["Income"; "Groceries"; "Entertainment"; "Transport"]%string.
Proof.
  intros Hbill.
  assert (Hgas : Str.includes (Str.toLowerCase d) "gas" = true)
    by (apply (includes_prefix "gas" "gas bill"); [reflexivity | exact Hbill]).
  unfold categorizeExpense. destruct d as [ | c rest]; [discriminate Hbill | ].
  destruct (JS.gt amount 0); [simpl; tauto | ].
  set (text := Str.toLowerCase (String c rest)) in *.
  assert (Htransport :
            any_keyword text (keywords_of "Transport" KEYWORD_MAP) = true).
  { simpl keywords_of. cbn [any_keyword]. rewrite Hgas.
    repeat match goal with
           | |- (if ?b then true else _) = true => destruct b; try reflexivity
           end. }
  simpl keywords_of in Htransport.
  destruct (first_category_within text (firstn 2 KEYWORD_MAP) "Transport" _
              (skipn 3 KEYWORD_MAP) Htransport) as [cat [Hscan Hin]].
  change (firstn 2 KEYWORD_MAP ++ _ :: skipn 3 KEYWORD_MAP)
    with KEYWORD_MAP in Hscan.
  rewrite Hscan. simpl in Hin. simpl. tauto.
Qed.

Lemma categorize_gas_bill_shadowed_witness :
  In (categorizeExpense (Some "Gas bill March"%string) (-60))
     ["Income"; "Groceries"; "Entertainment"; "Transport"]%string.
Proof. apply categorize_gas_bill_shadowed. reflexivity. Defined.

(** X4: a description without any keyword and an amount that is not
    positive fall back on the size of the amount: [Shopping] when
    [|amount| > 200], [Other] otherwise (for NaN as well). *)
Theorem categorize_fallback_by_amount (d : string) (amount : float) :
  Str.nonempty d = true ->
  JS.gt amount 0 = false ->
  (forall cat, In cat (map fst KEYWORD_MAP) -> has_keyword_of cat d = false) ->
  categorizeExpense (Some d) amount
  = if JS.gt (JS.Math_abs amount) 200 then "Shopping"%string
    else "Other"%string.
Proof.
  intros Hd Hamount Hnone. unfold categorizeExpense.
  destruct d as [ | c rest]; [discriminate Hd | ].
  rewrite Hamount.
  destruct (first_category _ KEYWORD_MAP) as [cat | ] eqn:Hscan;
    [ | reflexivity].
  exfalso.
  assert (Hkey := first_category_key _ _ _ Hscan).
  apply (first_category_has_keyword _ _ _ KEYWORD_MAP_NoDup) in Hscan.
  unfold has_keyword_of in Hnone. rewrite (Hnone cat Hkey) in Hscan.
  discriminate Hscan.
Qed.

Lemma categorize_fallback_by_amount_witness :
  categorizeExpense (Some "Rent"%string) (-950) = "Shopping"%string.
Proof.
  apply (categorize_fallback_by_amount "Rent" (-950)); try reflexivity.
  intros cat Hcat. simpl in Hcat.
  repeat (destruct Hcat as [<- | Hcat]; [reflexivity | ]).
  contradiction.
Defined.

(* ================================================================== *)
(** ** Further properties of the forecaster and of the alert *)
(* ================================================================== *)

Section ForecasterMore.

Lemma push_predictions_indexes slope intercept n remaining :
  forall i,
    map monthIndex (push_predictions slope intercept n i remaining)
    = seq (n + i) remaining.
Proof.
  induction remaining as [ | r IH]; intros i; simpl.
  - reflexivity.
  - rewrite IH. now rewrite Nat.add_succ_r.
Qed.

(** The fitted line reads the totals only. *)
Lemma regression_line_totals (s1 s2 : list MonthlyTotal) :
  map total s1 = map total s2 -> regression_line s1 = regression_line s2.
Proof.
  intros H. unfold regression_line.
  assert (Hlen : List.length s1 = List.length s2)
    by (rewrite <- (length_map total s1), H; apply length_map).
  now rewrite H, Hlen.
Qed.

(** NaN is the only number that differs from itself. *)
Lemma SFcompare_refl (X : spec_float) :
  X <> S754_nan -> SFcompare X X = Some Eq.
Proof.
  destruct X as [s | s | | s m e]; intros HX; try congruence.
  - reflexivity.
  - now destruct s.
  - simpl. rewrite Z.compare_refl, Pos.compare_cont_refl. now destruct s.
Qed.

Lemma is_nan_SF (x : float) : is_nan x = true -> Prim2SF x = S754_nan.
Proof.
  unfold is_nan. rewrite FloatAxioms.eqb_spec. unfold SFeqb. intros H.
  destruct (Prim2SF x) as [s | s | | s m e] eqn:Hx; try reflexivity;
    rewrite SFcompare_refl in H by discriminate; discriminate H.
Qed.

(** A number is not below zero exactly when its representation is one
    of [SF_not_negative]. *)
Lemma not_negative_SF (x : float) :
  PrimFloat.ltb x 0 = false <-> SF_not_negative (Prim2SF x).
Proof.
  rewrite FloatAxioms.ltb_spec, Prim2SF_zero. unfold SFltb.
  destruct (Prim2SF x) as [[ | ] | [ | ] | | [ | ] m e]; simpl;
    intuition discriminate.
Qed.

Lemma SFmul_not_negative X Y :
  SF_not_negative X -> SF_not_negative Y ->
  SF_not_negative (SFmul prec emax X Y).
Proof.
  destruct X as [sx | [ | ] | | [ | ] mx ex];
    destruct Y as [sy | [ | ] | | [ | ] my ey];
    simpl SF_not_negative; try contradiction; intros _ _; try exact I.
  unfold SFmul. cbn [xorb].
  assert (H := binary_round_aux_sign false (Zpos (mx * my)) (ex + ey)
                 loc_Exact ltac:(lia)).
  destruct (binary_round_aux prec emax false (Zpos (mx * my)) (ex + ey)
              loc_Exact) as [s | s | | s m e];
    simpl; try subst s; try exact I.
Qed.

Lemma nonneg_not_negative (X : spec_float) :
  SF_nonneg X -> SF_not_negative X.
Proof. destruct X as [[ | ] | [ | ] | | [ | ] m e]; simpl; tauto. Qed.

(** Dividing by a finite positive number. *)
Lemma SFdiv_not_negative X my ey :
  SF_not_negative X ->
  SF_not_negative (SFdiv prec emax X (S754_finite false my ey)).
Proof.
  intros HX. destruct X as [sx | [ | ] | | [ | ] mx ex];
    try contradiction; try exact I.
  apply nonneg_not_negative, SFdiv_nonneg. exact I.
Qed.

(** A threshold made of a budget and a percentage that are not below
    zero is not below zero. *)
Lemma threshold_not_negative (budget percent : float) :
  PrimFloat.ltb budget 0 = false -> PrimFloat.ltb percent 0 = false ->
  PrimFloat.ltb (budget * (percent / 100)) 0 = false.
Proof.
  rewrite !not_negative_SF. intros Hb Hp.
  rewrite FloatAxioms.mul_spec, FloatAxioms.div_spec, Prim2SF_100.
  apply SFmul_not_negative; [exact Hb | ].
  now apply SFdiv_not_negative.
Qed.

(** What is not below zero is not exceeded by zero. *)
Lemma zero_not_gt_not_negative (t : float) :
  PrimFloat.ltb t 0 = false -> JS.gt 0 t = false.
Proof.
  unfold JS.gt. rewrite !FloatAxioms.ltb_spec, Prim2SF_zero. unfold SFltb.
  destruct (Prim2SF t) as [[ | ] | [ | ] | | [ | ] m e]; simpl;
    congruence.
Qed.

(** [Math.max(0, x)] is never below zero. *)
Lemma Math_max_zero_not_negative (x : float) :
  PrimFloat.ltb (JS.Math_max 0 x) 0 = false.
Proof.
  unfold JS.Math_max. change (is_nan 0) with false. cbn [orb].
  destruct (is_nan x); [reflexivity | ].
  destruct (PrimFloat.ltb 0 x) eqn:Hlt.
  - apply not_negative_SF.
    rewrite FloatAxioms.ltb_spec, Prim2SF_zero in Hlt. unfold SFltb in Hlt.
    destruct (Prim2SF x) as [[ | ] | [ | ] | | [ | ] m e]; simpl in *;
      try exact I; discriminate Hlt.
  - destruct (PrimFloat.ltb x 0); reflexivity.
Qed.

(** [Math.abs(x)] is never below zero. *)
Lemma Math_abs_not_negative (x : float) :
  PrimFloat.ltb (JS.Math_abs x) 0 = false.
Proof.
  apply not_negative_SF. unfold JS.Math_abs. rewrite abs_spec.
  destruct (Prim2SF x) as [s | s | | s m e]; exact I.
Qed.

Lemma push_predictions_not_negative slope intercept n remaining :
  forall i,
    Forall (fun p => PrimFloat.ltb (predicted p) 0 = false)
           (push_predictions slope intercept n i remaining).
Proof.
  induction remaining as [ | r IH]; intros i; simpl.
  - constructor.
  - constructor; [ | apply IH]. apply Math_max_zero_not_negative.
Qed.

Lemma forecast_length (series : list MonthlyTotal) (horizon : nat) :
  List.length (linearRegressionPredict series horizon) = horizon.
Proof.
  unfold linearRegressionPredict. destruct series as [ | mt rest].
  - now rewrite length_map, length_seq.
  - destruct (regression_line (mt :: rest)) as [slope intercept].
    apply push_predictions_length.
Qed.

Lemma forecast_not_negative (series : list MonthlyTotal) (horizon : nat) :
  Forall (fun p => PrimFloat.ltb (predicted p) 0 = false)
         (linearRegressionPredict series horizon).
Proof.
  unfold linearRegressionPredict. destruct series as [ | mt rest].
  - apply Forall_forall. intros p Hp. apply in_map_iff in Hp.
    destruct Hp as [i [<- _]]. reflexivity.
  - destruct (regression_line (mt :: rest)) as [slope intercept].
    apply push_predictions_not_negative.
Qed.

End ForecasterMore.

(** X5: the predictions are numbered from the length of the series on:
    their [monthIndex] values are [n, n+1, ..., n+horizon-1], for the
    empty series too. *)
Theorem forecast_month_indexes (series : list MonthlyTotal) (horizon : nat) :
  map monthIndex (linearRegressionPredict series horizon)
  = seq (List.length series) horizon.
Proof.
  unfold linearRegressionPredict. destruct series as [ | mt rest].
  - rewrite map_map. simpl. apply map_id.
  - destruct (regression_line (mt :: rest)) as [slope intercept].
    rewrite push_predictions_indexes. now rewrite Nat.add_0_r.
Qed.

(** X6: the forecast reads the totals and their positions only: two
    series with the same totals get the same predictions, whatever their
    month keys are (a missing month is not seen). *)
Theorem forecast_ignores_month_keys (s1 s2 : list MonthlyTotal)
    (horizon : nat) :
  map total s1 = map total s2 ->
  linearRegressionPredict s1 horizon = linearRegressionPredict s2 horizon.
Proof.
  intros H. unfold linearRegressionPredict.
  assert (Hlen : List.length s1 = List.length s2)
    by (rewrite <- (length_map total s1), H; apply length_map).
  destruct s1 as [ | a1 r1], s2 as [ | a2 r2]; try discriminate Hlen.
  - reflexivity.
  - rewrite (regression_line_totals _ _ H). now rewrite Hlen.
Qed.

Lemma forecast_ignores_month_keys_witness :
  linearRegressionPredict
    [mkMonthlyTotal "2025-01" 100; mkMonthlyTotal "2025-02" 120] 3
  = linearRegressionPredict
      [mkMonthlyTotal "2024-03" 100; mkMonthlyTotal "2025-11" 120] 3.
Proof. apply forecast_ignores_month_keys. reflexivity. Defined.

(** X7: with no transactions at all the alert is not raised, for every
    budget and every percentage that are not below zero. *)
Theorem budgetAlert_empty_history (fullYear monthNumber : string -> string)
    (localeCompare : string -> string -> Z) (budget percent : float) :
  PrimFloat.ltb budget 0 = false ->
  PrimFloat.ltb percent 0 = false ->
  budgetAlert (monthlyTotals fullYear monthNumber localeCompare [])
              budget percent = false.
Proof.
  intros Hb Hp. unfold budgetAlert, willBreachBudget.
  change (predictedNextMonth
            (linearRegressionPredict
               (monthlyTotals fullYear monthNumber localeCompare []) 3))
    with 0.
  apply zero_not_gt_not_negative. now apply threshold_not_negative.
Qed.

Lemma budgetAlert_empty_history_witness :
  budgetAlert (monthlyTotals utc_fullYear utc_monthNumber code_unit_compare [])
              2000 90 = false.
Proof. apply budgetAlert_empty_history; reflexivity. Defined.

(** X8: a NaN never raises the alert: when the predicted value, the
    budget or the percentage is NaN, [willBreachBudget] is [false]. *)
Theorem willBreachBudget_NaN_is_silent (p budget percent : float) :
  JS.isNaN p || JS.isNaN budget || JS.isNaN percent = true ->
  willBreachBudget p budget percent = false.
Proof.
  unfold JS.isNaN, willBreachBudget, JS.gt. intros H.
  rewrite FloatAxioms.ltb_spec, FloatAxioms.mul_spec, FloatAxioms.div_spec.
  unfold SFltb.
  apply orb_true_iff in H. destruct H as [H | H];
    [apply orb_true_iff in H; destruct H as [H | H] | ];
    apply is_nan_SF in H; rewrite H.
  - destruct (SF64mul _ _); reflexivity.
  - reflexivity.
  - unfold SF64mul, SF64div. simpl SFdiv.
    destruct (Prim2SF budget); reflexivity.
Qed.

Lemma willBreachBudget_NaN_is_silent_witness :
  willBreachBudget nan 2000 90 = false.
Proof. apply willBreachBudget_NaN_is_silent. reflexivity. Defined.

(** X9: nothing drawn on the line chart is below zero, a month or a
    prediction, and the chart has one point per month and one per
    prediction; the same holds for the latest month shown beside it. *)
Theorem chartData_not_negative (totals : list MonthlyTotal)
    (series : list MonthlyTotal) (horizon : nat) :
  Forall (fun pt => PrimFloat.ltb (point_total pt) 0 = false)
         (chartData totals (linearRegressionPredict series horizon))
  /\ List.length (chartData totals (linearRegressionPredict series horizon))
     = (List.length totals + horizon)%nat
  /\ PrimFloat.ltb (latestMonthTotal totals) 0 = false.
Proof.
  split; [ | split].
  - unfold chartData. apply Forall_app. split.
    + apply Forall_forall. intros pt Hpt. apply in_map_iff in Hpt.
      destruct Hpt as [m [<- _]]. apply Math_abs_not_negative.
    + assert (H := forecast_not_negative series horizon).
      generalize 0%nat.
      induction H as [ | p rest Hp _ IH]; intros i; simpl; constructor.
      * exact Hp.
      * apply IH.
  - unfold chartData. rewrite length_app, length_map. f_equal.
    rewrite <- (forecast_length series horizon) at 2.
    generalize 0%nat.
    induction (linearRegressionPredict series horizon) as [ | p rest IH];
      intros i; simpl; [reflexivity | now rewrite IH].
  - unfold latestMonthTotal. destruct totals as [ | m rest];
      [reflexivity | apply Math_abs_not_negative].
Qed.

(* ================================================================== *)
(** ** Further properties of the goals *)
(* ================================================================== *)

Section GoalMore.

(** Zero divided by a positive number is zero. *)
Lemma zero_div_positive (t : float) : JS.gt t 0 = true -> 0 / t = 0.
Proof.
  intros Ht. apply Prim2SF_inj. rewrite FloatAxioms.div_spec, Prim2SF_zero.
  unfold JS.gt in Ht.
  rewrite FloatAxioms.ltb_spec, Prim2SF_zero in Ht. unfold SFltb in Ht.
  destruct (Prim2SF t) as [[ | ] | [ | ] | | [ | ] m e];
    try discriminate Ht; reflexivity.
Qed.

(** Transactions that are not income are dropped by the filter. *)
Lemma filter_no_income (expenses : list Transaction) :
  Forall (fun e => JS.gt (amount e) 0 = false) expenses ->
  filter (fun e => JS.gt (amount e) 0) expenses = [].
Proof.
  induction 1 as [ | e rest He _ IH]; simpl.
  - reflexivity.
  - now rewrite He.
Qed.

End GoalMore.

(** X10: the percentage of a goal never exceeds 100, whatever the
    transactions and the goal are, a zero or negative target
    included. *)
Theorem progressForGoal_pct_capped (expenses : list Transaction)
    (goal : Goal) :
  JS.gt (pct (progressForGoal expenses goal)) 100 = false.
Proof.
  unfold progressForGoal. cbn [pct].
  set (r := JS.Math_round (positive_sum expenses / target goal * 100)).
  unfold JS.Math_min, JS.gt. change (is_nan 100) with false. cbn [orb].
  destruct (is_nan r); [reflexivity | ].
  destruct (PrimFloat.ltb 100 r) eqn:Habove; [reflexivity | ].
  destruct (PrimFloat.ltb r 100); [exact Habove | ].
  change (get_sign 100) with false. exact Habove.
Qed.

(** X11: when no transaction has a positive amount, the progress of a
    goal with a positive target is nothing saved and 0 percent. *)
Theorem progressForGoal_no_income (expenses : list Transaction)
    (goal : Goal) :
  Forall (fun e => JS.gt (amount e) 0 = false) expenses ->
  JS.gt (target goal) 0 = true ->
  progressForGoal expenses goal = mkProgress 0 0.
Proof.
  intros Hnone Hpos. unfold progressForGoal, positive_sum.
  rewrite (filter_no_income _ Hnone). cbn [fold_left].
  rewrite (zero_div_positive _ Hpos). reflexivity.
Qed.

Lemma progressForGoal_no_income_witness :
  progressForGoal
    [ mkTransaction (IdString "1") "2025-01-05" "Coffee shop" (-4.5) "Dining";
      mkTransaction (IdString "2") "2025-01-09" "Grocery store" (-61.2) "Groceries" ]
    (mkGoal "g1" "Holiday" 500 "2025-01-01T00:00:00.000Z")
  = mkProgress 0 0.
Proof.
  apply progressForGoal_no_income; [ | reflexivity].
  repeat constructor.
Defined.

(** X12: a transaction whose amount is not positive, wherever it stands
    in the history, changes neither the saved amount nor the percentage
    of any goal: spending never lowers the progress. *)
Theorem progressForGoal_ignores_expenses (before after : list Transaction)
    (e : Transaction) (goal : Goal) :
  JS.gt (amount e) 0 = false ->
  progressForGoal (before ++ e :: after) goal
  = progressForGoal (before ++ after) goal.
Proof.
  intros He. unfold progressForGoal, positive_sum.
  rewrite !filter_app. simpl filter. now rewrite He.
Qed.

Lemma progressForGoal_ignores_expenses_witness :
  progressForGoal
    ([mkTransaction (IdString "1") "2025-01-03" "Salary deposit" 100 "Income"]
       ++ mkTransaction (IdString "2") "2025-01-05" "Coffee shop" (-4.5) "Dining"
       :: [mkTransaction (IdString "3") "2025-02-03" "Salary deposit" 150 "Income"])
    (mkGoal "g1" "Holiday" 500 "2025-01-01T00:00:00.000Z")
  = progressForGoal
      ([mkTransaction (IdString "1") "2025-01-03" "Salary deposit" 100 "Income"]
         ++ [mkTransaction (IdString "3") "2025-02-03" "Salary deposit" 150 "Income"])
      (mkGoal "g1" "Holiday" 500 "2025-01-01T00:00:00.000Z").
Proof. apply progressForGoal_ignores_expenses. reflexivity. Defined.

(** X13: pressing [Create Goal] twice creates one goal: after a first
    [addGoal] a second one changes nothing, whatever the clock says,
    because the form is emptied (or was not valid to begin with). *)
Theorem addGoal_twice (id1 iso1 id2 iso2 : string) (st : GoalForm) :
  addGoal id2 iso2 (addGoal id1 iso1 st) = addGoal id1 iso1 st.
Proof.
  unfold addGoal at 2 3.
  destruct (negb (Str.nonempty (newGoalName st))
            || negb (JS.truthy (newGoalAmount st))) eqn:Hguard.
  - unfold addGoal. now rewrite Hguard.
  - reflexivity.
Qed.

(** X14: [addGoal] keeps the goals well-formed in this sense: when
    every goal has a name and a target that is neither zero nor NaN,
    so has every goal afterwards; the goals that were there stay, in
    order, behind at most one new goal. *)
Theorem addGoal_keeps_goals_named (now_id now_iso : string) (st : GoalForm) :
  Forall (fun g => Str.nonempty (name g) = true
                   /\ JS.truthy (target g) = true) (goals st) ->
  Forall (fun g => Str.nonempty (name g) = true
                   /\ JS.truthy (target g) = true)
         (goals (addGoal now_id now_iso st))
  /\ exists created,
       goals (addGoal now_id now_iso st) = created ++ goals st
       /\ (List.length created <= 1)%nat.
Proof.
  intros Hgoals. unfold addGoal.
  destruct (Str.nonempty (newGoalName st)) eqn:Hname;
    destruct (JS.truthy (newGoalAmount st)) eqn:Hamount; cbn [negb orb goals].
  - split.
    + constructor; [now split | exact Hgoals].
    + eexists [_]. split; [reflexivity | simpl; lia].
  - split; [exact Hgoals | exists []; split; [reflexivity | simpl; lia]].
  - split; [exact Hgoals | exists []; split; [reflexivity | simpl; lia]].
  - split; [exact Hgoals | exists []; split; [reflexivity | simpl; lia]].
Qed.

Lemma addGoal_keeps_goals_named_witness :
  Forall (fun g => Str.nonempty (name g) = true
                   /\ JS.truthy (target g) = true)
         (goals (addGoal "1736035200000" "2025-01-05T00:00:00.000Z"
                   (mkGoalForm [] "Holiday" 500))).
Proof.
  exact (proj1 (addGoal_keeps_goals_named "1736035200000"
                  "2025-01-05T00:00:00.000Z" (mkGoalForm [] "Holiday" 500)
                  (Forall_nil _))).
Defined.

(* ================================================================== *)
(** ** Further properties of the CSV import *)
(* ================================================================== *)

Section ImportMore.

(** [split] gives one piece more than there are separators. *)
Lemma split_on_length (sep : ascii) (s : string) :
  List.length (Str.split_on sep s) = S (count_char sep s).
Proof.
  induction s as [ | c rest IH]; simpl.
  - reflexivity.
  - destruct (Ascii.eqb c sep); simpl.
    + now rewrite IH.
    + destruct (Str.split_on sep rest) as [ | piece pieces];
        [discriminate IH | exact IH].
Qed.

(** No piece holds the separator. *)
Lemma split_on_no_sep (sep : ascii) (s : string) :
  Forall (fun piece => count_char sep piece = O) (Str.split_on sep s).
Proof.
  induction s as [ | c rest IH]; simpl.
  - repeat constructor.
  - destruct (Ascii.eqb c sep) eqn:Hc.
    + constructor; [reflexivity | exact IH].
    + destruct (Str.split_on sep rest) as [ | piece pieces].
      * repeat constructor. simpl. now rewrite Hc.
      * inversion IH as [ | ? ? Hpiece Hpieces]; subst.
        constructor; [ | exact Hpieces]. simpl. now rewrite Hc.
Qed.

Lemma nth_Forall {A : Type} (P : A -> Prop) (l : list A) (d : A) (i : nat) :
  Forall P l -> P d -> P (nth i l d).
Proof.
  intros Hl Hd. revert i. induction Hl as [ | x rest Hx _ IH]; intros i.
  - now destruct i.
  - destruct i; [exact Hx | apply IH].
Qed.

(** Trimming removes characters only. *)
Lemma trimStart_count (c : ascii) (s : string) :
  count_char c s = O -> count_char c (Str.trimStart s) = O.
Proof.
  induction s as [ | a rest IH]; simpl; [reflexivity | ].
  destruct (Str.is_space a); [ | now simpl].
  destruct (Ascii.eqb a c); [discriminate | exact IH].
Qed.

Lemma trimEnd_count (c : ascii) (s : string) :
  count_char c s = O -> count_char c (Str.trimEnd s) = O.
Proof.
  induction s as [ | a rest IH]; simpl; [reflexivity | ].
  destruct (Ascii.eqb a c) eqn:Hac; [discriminate | ].
  intros Hrest. specialize (IH Hrest).
  destruct (Str.trimEnd rest) as [ | b kept].
  - destruct (Str.is_space a); simpl; [reflexivity | now rewrite Hac].
  - simpl. rewrite Hac. exact IH.
Qed.

Lemma trim_count (c : ascii) (s : string) :
  count_char c s = O -> count_char c (Str.trim s) = O.
Proof. intros H. now apply trimEnd_count, trimStart_count. Qed.

(** Trimming the end twice is trimming it once. *)
Lemma trimEnd_idempotent (s : string) :
  Str.trimEnd (Str.trimEnd s) = Str.trimEnd s.
Proof.
  induction s as [ | a rest IH]; simpl; [reflexivity | ].
  destruct (Str.trimEnd rest) as [ | b kept] eqn:Hrest.
  - destruct (Str.is_space a) eqn:Ha; simpl; [reflexivity | now rewrite Ha].
  - simpl in IH. simpl. now rewrite IH.
Qed.

Lemma trimStart_clean (s : string) : starts_clean (Str.trimStart s) = true.
Proof.
  induction s as [ | a rest IH]; simpl; [reflexivity | ].
  destruct (Str.is_space a) eqn:Ha; [exact IH | ]. simpl. now rewrite Ha.
Qed.

Lemma trimStart_of_clean (s : string) :
  starts_clean s = true -> Str.trimStart s = s.
Proof.
  destruct s as [ | a rest]; simpl; [reflexivity | ].
  now destruct (Str.is_space a).
Qed.

Lemma trimEnd_clean (s : string) :
  starts_clean s = true -> starts_clean (Str.trimEnd s) = true.
Proof.
  destruct s as [ | a rest]; simpl; [reflexivity | ].
  intros Ha. destruct (Str.trimEnd rest).
  - destruct (Str.is_space a) eqn:Hsp; [discriminate Ha | ].
    simpl. now rewrite Hsp.
  - exact Ha.
Qed.

(** Trimming twice is trimming once. *)
Lemma trim_idempotent (s : string) : Str.trim (Str.trim s) = Str.trim s.
Proof.
  unfold Str.trim.
  rewrite (trimStart_of_clean (Str.trimEnd (Str.trimStart s)))
    by apply trimEnd_clean, trimStart_clean.
  apply trimEnd_idempotent.
Qed.

(** A string of white space trims to nothing. *)
Lemma trim_all_space (s : string) :
  all_space s = true -> Str.trim s = EmptyString.
Proof.
  intros Hs. unfold Str.trim.
  assert (H : Str.trimStart s = EmptyString).
  { induction s as [ | a rest IH]; simpl in *; [reflexivity | ].
    apply andb_prop in Hs. destruct Hs as [Ha Hrest].
    rewrite Ha. now apply IH. }
  now rewrite H.
Qed.

(** The lines of a string of white space are strings of white space. *)
Lemma split_lines_all_space (n : nat) :
  forall s,
    (String.length s <= n)%nat -> all_space s = true ->
    Forall (fun piece => all_space piece = true) (Str.split_lines s).
Proof.
  induction n as [ | n IH]; intros s Hlen Hs.
  - destruct s; [repeat constructor | simpl in Hlen; lia].
  - destruct s as [ | c rest]; [repeat constructor | ].
    simpl in Hlen. simpl in Hs. apply andb_prop in Hs.
    destruct Hs as [Hc Hrest].
    simpl Str.split_lines. destruct (Ascii.eqb c Str.LF).
    + constructor; [reflexivity | apply IH; [lia | exact Hrest]].
    + destruct rest as [ | c' rest'].
      * repeat constructor. simpl. now rewrite Hc.
      * destruct (Ascii.eqb c Str.CR && Ascii.eqb c' Str.LF).
        -- constructor; [reflexivity | ].
           simpl in Hrest. apply andb_prop in Hrest.
           apply IH; [simpl in Hlen; lia | tauto].
        -- assert (Hpieces := IH (String c' rest') ltac:(lia) Hrest).
           destruct (Str.split_lines (String c' rest')) as [ | piece pieces].
           ++ repeat constructor. simpl. now rewrite Hc.
           ++ inversion Hpieces as [ | ? ? Hpiece Htail]; subst.
              constructor; [ | exact Htail]. simpl. now rewrite Hc, Hpiece.
Qed.

(** The category given by the categorizer is never the empty string. *)
Lemma categorizeExpense_nonempty (d : option string) (amount : float) :
  Str.nonempty (categorizeExpense d amount) = true.
Proof.
  unfold categorizeExpense.
  destruct d as [[ | c rest] | ]; try reflexivity.
  destruct (JS.gt amount 0); try reflexivity.
  destruct (first_category _ KEYWORD_MAP) as [cat | ] eqn:Hscan.
  - apply first_category_key in Hscan. simpl in Hscan.
    repeat (destruct Hscan as [<- | Hscan]; [reflexivity | ]).
    contradiction.
  - destruct (JS.gt (JS.Math_abs amount) 200); reflexivity.
Qed.

Variable Number : string -> float.
Variable fresh_id : nat -> float.

(** What holds of every row holds of every imported transaction. *)
Lemma transactions_from_Forall (P : Transaction -> Prop) :
  (forall k r,
      P (row_transaction Number fresh_id k (Str.split_on comma r))) ->
  forall kept k, Forall P (transactions_from Number fresh_id k kept).
Proof.
  intros HP kept. induction kept as [ | r rest IH]; intros k; simpl.
  - constructor.
  - constructor; [apply HP | apply IH].
Qed.

(** The first two fields of a row, trimmed. *)
Lemma row_field_clean (parts : list string) (i : nat) :
  Forall (fun piece => count_char comma piece = O) parts ->
  Str.trim (Str.trim (nth i parts EmptyString))
  = Str.trim (nth i parts EmptyString)
  /\ count_char comma (Str.trim (nth i parts EmptyString)) = O.
Proof.
  intros Hparts. split; [apply trim_idempotent | ].
  apply trim_count. now apply nth_Forall.
Qed.

End ImportMore.

(** X15: [importCSV] imports a line exactly when it holds at least two
    commas: the transactions it puts in front are those of the
    non-empty trimmed lines with two commas or more, in order, and no
    others. *)
Theorem importCSV_keeps_two_commas (Number : string -> float)
    (fresh_id : nat -> float) (text : string) (expenses : list Transaction) :
  importCSV Number fresh_id text expenses
  = transactions_from Number fresh_id 0
      (filter (fun r => (2 <=? count_char comma r)%nat) (csv_rows text))
    ++ expenses.
Proof.
  unfold importCSV. rewrite parse_rows_kept. cbn [app List.length].
  f_equal. f_equal. apply filter_ext. intros r.
  unfold has_three_fields. rewrite split_on_length.
  destruct (count_char comma r) as [ | [ | n]]; reflexivity.
Qed.

(** X16: a text of white space and line breaks only imports nothing:
    the transactions stay as they are. *)
Theorem importCSV_blank_text (Number : string -> float)
    (fresh_id : nat -> float) (text : string) (expenses : list Transaction) :
  all_space text = true ->
  importCSV Number fresh_id text expenses = expenses.
Proof.
  intros Hblank. unfold importCSV, csv_rows.
  assert (Hlines := split_lines_all_space _ text (Nat.le_refl _) Hblank).
  assert (Hrows : filter Str.nonempty (map Str.trim (Str.split_lines text)) = []).
  { induction Hlines as [ | piece pieces Hpiece _ IH]; simpl.
    - reflexivity.
    - now rewrite (trim_all_space _ Hpiece). }
  now rewrite Hrows.
Qed.

Lemma importCSV_blank_text_witness :
  importCSV (fun _ => nan) (fun _ => 0)
            (String Str.LF (String " " (String Str.CR (String Str.LF "  "))))
            [mkTransaction (IdString "1") "2025-01-03" "Salary deposit" 100 "Income"]
  = [mkTransaction (IdString "1") "2025-01-03" "Salary deposit" 100 "Income"].
Proof. apply importCSV_blank_text. reflexivity. Defined.

(** X17: the date and the description of every imported transaction are
    trimmed and hold no comma: a field is never read across a comma, so
    a description written with a comma is cut there. *)
Theorem importCSV_fields_clean (Number : string -> float)
    (fresh_id : nat -> float) (text : string) :
  Forall (fun t => Str.trim (date t) = date t
                   /\ count_char comma (date t) = O
                   /\ Str.trim (description t) = description t
                   /\ count_char comma (description t) = O)
         (importCSV Number fresh_id text []).
Proof.
  unfold importCSV. rewrite app_nil_r, parse_rows_kept. cbn [app List.length].
  apply transactions_from_Forall. intros k r.
  cbn [row_transaction date description].
  destruct (row_field_clean _ 0 (split_on_no_sep comma r)) as [Hdate Hdate'].
  destruct (row_field_clean _ 1 (split_on_no_sep comma r)) as [Hdesc Hdesc'].
  tauto.
Qed.

(** X18: every imported transaction carries the category that
    [categorizeExpense] answers for its own description and amount,
    never an empty one, and the transactions that were there stay
    unchanged behind the imported ones. *)
Theorem importCSV_categorizes (Number : string -> float)
    (fresh_id : nat -> float) (text : string) (expenses : list Transaction) :
  exists imported,
    importCSV Number fresh_id text expenses = imported ++ expenses
    /\ Forall (fun t => category t
                        = categorizeExpense (Some (description t)) (amount t)
                        /\ Str.nonempty (category t) = true)
              imported.
Proof.
  exists (transactions_from Number fresh_id 0
            (filter has_three_fields (csv_rows text))).
  split.
  - unfold importCSV. now rewrite parse_rows_kept.
  - apply transactions_from_Forall. intros k r.
    cbn [row_transaction category description amount].
    split; [reflexivity | apply categorizeExpense_nonempty].
Qed.

(** X25: a row is never rejected for its amount: the number of
    transactions after an import is the same whatever [Number] makes of
    the amount fields, NaN included, and whatever the identifiers
    are. *)
Theorem importCSV_count_ignores_amounts (Number1 Number2 : string -> float)
    (fresh_id1 fresh_id2 : nat -> float) (text : string)
    (expenses : list Transaction) :
  List.length (importCSV Number1 fresh_id1 text expenses)
  = List.length (importCSV Number2 fresh_id2 text expenses).
Proof.
  unfold importCSV. rewrite !parse_rows_kept. cbn [app List.length].
  rewrite !length_app. f_equal.
  generalize 0%nat at 1 as k1. generalize 0%nat as k2.
  induction (filter has_three_fields (csv_rows text)) as [ | r rest IH];
    intros k2 k1; simpl; [reflexivity | now rewrite (IH (S k2) (S k1))].
Qed.

(* ================================================================== *)
(** ** Properties of the category back-fill and of the manual entry *)
(* ================================================================== *)

Section BackfillFacts.

(** What the callback of [map] makes of one transaction. *)
Let filled (e : Transaction) : Transaction :=
  if Str.nonempty (category e) then e
  else with_category e (categorizeExpense (Some (description e)) (amount e)).

Lemma categorize_missing_map (expenses : list Transaction) :
  forall changed,
    categorize_missing expenses changed
    = (changed || existsb (fun e => negb (Str.nonempty (category e))) expenses,
       map filled expenses).
Proof.
  induction expenses as [ | e rest IH]; intros changed; simpl.
  - now rewrite orb_false_r.
  - unfold filled at 1. destruct (Str.nonempty (category e)); rewrite IH; simpl.
    + reflexivity.
    + now rewrite orb_true_r.
Qed.

(** Without an empty category nothing changes. *)
Lemma map_filled_unchanged (expenses : list Transaction) :
  existsb (fun e => negb (Str.nonempty (category e))) expenses = false ->
  map filled expenses = expenses.
Proof.
  induction expenses as [ | e rest IH]; simpl; [reflexivity | ].
  intros H. apply orb_false_iff in H. destruct H as [He Hrest].
  unfold filled at 1. apply negb_false_iff in He. rewrite He.
  now rewrite IH.
Qed.

Lemma autoCategorize_map (expenses : list Transaction) :
  autoCategorize expenses = map filled expenses.
Proof.
  unfold autoCategorize. rewrite categorize_missing_map. cbn [orb].
  destruct (existsb _ expenses) eqn:Hany; [reflexivity | ].
  symmetry. now apply map_filled_unchanged.
Qed.

Lemma filled_has_category (e : Transaction) :
  Str.nonempty (category (filled e)) = true.
Proof.
  unfold filled. destruct (Str.nonempty (category e)) eqn:He; [exact He | ].
  apply categorizeExpense_nonempty.
Qed.

Lemma filled_twice (e : Transaction) : filled (filled e) = filled e.
Proof.
  unfold filled at 1. now rewrite filled_has_category.
Qed.

(** X19: after the back-fill every transaction has a category; a
    transaction that had one is left as it was, and one that had none
    gets the answer of [categorizeExpense] and keeps its id, date,
    description and amount. *)
Theorem autoCategorize_fills (expenses : list Transaction) :
  Forall (fun e => Str.nonempty (category e) = true)
         (autoCategorize expenses)
  /\ Forall2 (fun e e' =>
                id e' = id e /\ date e' = date e
                /\ description e' = description e /\ amount e' = amount e
                /\ (Str.nonempty (category e) = true -> e' = e)
                /\ (Str.nonempty (category e) = false ->
                    category e'
                    = categorizeExpense (Some (description e)) (amount e)))
             expenses (autoCategorize expenses).
Proof.
  rewrite autoCategorize_map. split.
  - apply Forall_forall. intros e' He'. apply in_map_iff in He'.
    destruct He' as [e [<- _]]. apply filled_has_category.
  - induction expenses as [ | e rest IH]; simpl; constructor; [ | exact IH].
    unfold filled. destruct (Str.nonempty (category e));
      cbn [with_category id date description amount category];
      repeat split; congruence.
Qed.

(** X20: the back-fill is idempotent: run on its own result it changes
    nothing. *)
Theorem autoCategorize_idempotent (expenses : list Transaction) :
  autoCategorize (autoCategorize expenses) = autoCategorize expenses.
Proof.
  rewrite !autoCategorize_map, map_map.
  apply map_ext. intros e. apply filled_twice.
Qed.

Lemma map_filled_categorized (l : list Transaction) :
  Forall (fun t => Str.nonempty (category t) = true) l -> map filled l = l.
Proof.
  induction 1 as [ | t rest Ht _ IH]; simpl; [reflexivity | ].
  unfold filled at 1. now rewrite Ht, IH.
Qed.

(** X24: importing and back-filling commute: the back-fill after an
    import leaves the imported transactions alone (they carry a
    category) and fills the older ones, as if it had run before the
    import. *)
Theorem autoCategorize_after_import (Number : string -> float)
    (fresh_id : nat -> float) (text : string) (expenses : list Transaction) :
  autoCategorize (importCSV Number fresh_id text expenses)
  = importCSV Number fresh_id text (autoCategorize expenses).
Proof.
  rewrite !autoCategorize_map. unfold importCSV.
  rewrite parse_rows_kept, map_app. cbn [app List.length]. f_equal.
  apply map_filled_categorized.
  apply transactions_from_Forall. intros k r. cbn [row_transaction category].
  apply categorizeExpense_nonempty.
Qed.

End BackfillFacts.

(** X21: the [Add] button never stores a NaN amount, an empty
    description or an empty category: when the transactions have none
    of these, they have none after [quickAdd], whatever was typed; and
    the transactions that were there stay, behind at most one new
    one. *)
Theorem quickAdd_keeps_transactions_valid (today now_id : string)
    (desc : option string) (amt : float) (s : list Transaction) :
  Forall (fun t => JS.isNaN (amount t) = false
                   /\ Str.nonempty (description t) = true
                   /\ Str.nonempty (category t) = true) s ->
  Forall (fun t => JS.isNaN (amount t) = false
                   /\ Str.nonempty (description t) = true
                   /\ Str.nonempty (category t) = true)
         (quickAdd today now_id desc amt s)
  /\ exists added,
       quickAdd today now_id desc amt s = added ++ s
       /\ (List.length added <= 1)%nat.
Proof.
  intros Hs. unfold quickAdd.
  destruct desc as [d | ];
    [ | split; [exact Hs | exists []; split; [reflexivity | simpl; lia]]].
  destruct (Str.nonempty d) eqn:Hd; destruct (JS.isNaN amt) eqn:Hamt;
    cbn [andb negb];
    try (split; [exact Hs | exists []; split; [reflexivity | simpl; lia]]).
  unfold addExpense. cbn [date description amount category]. split.
  - constructor; [ | exact Hs]. cbn [amount description category].
    repeat split; try assumption. apply categorizeExpense_nonempty.
  - eexists [_]. split; [reflexivity | simpl; lia].
Qed.

Lemma quickAdd_keeps_transactions_valid_witness :
  Forall (fun t => JS.isNaN (amount t) = false
                   /\ Str.nonempty (description t) = true
                   /\ Str.nonempty (category t) = true)
         (quickAdd "2025-01-05" "1736035200000" (Some "Lunch at the diner")
                   (-12.5) []).
Proof.
  exact (proj1 (quickAdd_keeps_transactions_valid "2025-01-05" "1736035200000"
                  (Some "Lunch at the diner"%string) (-12.5) []
                  (Forall_nil _))).
Defined.

(* ================================================================== *)
(** ** Further properties of the monthly aggregation *)
(* ================================================================== *)

Section AggregationMore.

Variable fullYear : string -> string.
Variable monthNumber : string -> string.
Variable localeCompare : string -> string -> Z.

(** The months of two neighbours of the sorted array. *)
Let ascending (x y : MonthlyTotal) : Prop :=
  (localeCompare (month x) (month y) <= 0)%Z.

Hypothesis localeCompare_antisym :
  forall a b : string,
    (0 < localeCompare a b)%Z -> (localeCompare b a <= 0)%Z.

Lemma sort_insert_HdRel (x y : MonthlyTotal) (sorted : list MonthlyTotal) :
  ascending y x -> HdRel ascending y sorted ->
  HdRel ascending y (sort_insert localeCompare x sorted).
Proof.
  intros Hyx Hy. destruct sorted as [ | z rest]; simpl.
  - now constructor.
  - destruct (0 <? localeCompare (month x) (month z))%Z.
    + inversion Hy; subst. now constructor.
    + now constructor.
Qed.

Lemma sort_insert_Sorted (x : MonthlyTotal) (sorted : list MonthlyTotal) :
  Sorted ascending sorted ->
  Sorted ascending (sort_insert localeCompare x sorted).
Proof.
  induction 1 as [ | y rest Hrest IH Hy]; simpl.
  - repeat constructor.
  - destruct (Z.ltb_spec 0 (localeCompare (month x) (month y))) as [Hgt | Hle].
    + constructor; [exact IH | ].
      apply sort_insert_HdRel; [ | exact Hy].
      now apply localeCompare_antisym.
    + constructor; [now constructor | ]. constructor. exact Hle.
Qed.

Lemma sort_by_month_Sorted (arr : list MonthlyTotal) :
  Sorted ascending (sort_by_month localeCompare arr).
Proof.
  induction arr as [ | x rest IH]; simpl.
  - constructor.
  - now apply sort_insert_Sorted.
Qed.

End AggregationMore.

Section AggregationAmounts.

Variable fullYear : string -> string.
Variable monthNumber : string -> string.

(** [x || 0] twice is [x || 0]. *)
Lemma or_zero_idempotent (x : float) :
  JS.or_zero (JS.or_zero x) = JS.or_zero x.
Proof.
  unfold JS.or_zero. destruct (JS.truthy x) eqn:Hx.
  - now rewrite Hx.
  - reflexivity.
Qed.

Lemma fill_map_zero_falsy (expenses : list Transaction) :
  forall mp,
    fill_map fullYear monthNumber (map zero_falsy_amount expenses) mp
    = fill_map fullYear monthNumber expenses mp.
Proof.
  induction expenses as [ | e rest IH]; intros mp; simpl.
  - reflexivity.
  - rewrite or_zero_idempotent. apply IH.
Qed.

End AggregationAmounts.

(** A comparison by code units is antisymmetric. *)
Lemma code_unit_compare_antisym (a b : string) :
  (0 < code_unit_compare a b)%Z -> (code_unit_compare b a <= 0)%Z.
Proof.
  unfold code_unit_compare. rewrite (String.compare_antisym a b).
  destruct (String.compare b a); simpl; lia.
Qed.

(** X22: when [localeCompare] never puts two strings each after the
    other, the monthly totals come out in ascending order of month:
    every entry's month compares less than or equal to the next
    one's. *)
Theorem monthlyTotals_sorted (fullYear monthNumber : string -> string)
    (localeCompare : string -> string -> Z) (expenses : list Transaction) :
  (forall a b : string,
      (0 < localeCompare a b)%Z -> (localeCompare b a <= 0)%Z) ->
  Sorted (fun x y => (localeCompare (month x) (month y) <= 0)%Z)
         (monthlyTotals fullYear monthNumber localeCompare expenses).
Proof.
  intros Hcmp. unfold monthlyTotals. now apply sort_by_month_Sorted.
Qed.

Lemma monthlyTotals_sorted_witness :
  Sorted (fun x y => (code_unit_compare (month x) (month y) <= 0)%Z)
         (monthlyTotals utc_fullYear utc_monthNumber code_unit_compare
            [ mkTransaction (IdString "1") "2025-02-03" "Grocery store" (-40.25) "Groceries";
              mkTransaction (IdString "2") "2025-01-15" "Salary deposit" 3000 "Income" ]).
Proof.
  apply monthlyTotals_sorted. exact code_unit_compare_antisym.
Defined.

(** X23: an amount that is [0], [-0] or NaN counts as 0 in the monthly
    totals: replacing every such amount by 0 gives the same totals, so
    a transaction imported with an amount that is not a number adds
    nothing to its month. *)
Theorem monthlyTotals_falsy_amounts (fullYear monthNumber : string -> string)
    (localeCompare : string -> string -> Z) (expenses : list Transaction) :
  monthlyTotals fullYear monthNumber localeCompare
                (map zero_falsy_amount expenses)
  = monthlyTotals fullYear monthNumber localeCompare expenses.
Proof.
  unfold monthlyTotals. now rewrite fill_map_zero_falsy.
Qed.
